(** * AI sign language translator: landmark normalisation and prediction smoothing

    A shallow embedding of the numeric core of the repository:

    - [SignDetector.preprocess_landmarks]  (src/sign_detector.py)
    - [Utils.validate_landmarks]           (src/utils.py)
    - [SignTranslator]                     (src/translator.py), with the
      tunables of src/config.py.

    Numbers.  A numpy / Python float is modelled by the type [float] below:
    a finite value carries an exact rational, and the three IEEE special
    values are kept apart, so that "division by zero", [np.isnan] and
    [np.isinf] keep their meaning.  Rounding, overflow of finite values and
    the sign of zero are not modelled.

    Exceptions.  Pure code that can raise returns a [result].  The methods
    of the translator live in the monad [SignTranslator.M], which threads
    [self] and keeps what was written before an exception; a [try/except
    Exception] block is [SignTranslator.try_exceptM]. *)

From Stdlib Require Import String List ZArith QArith Qminmax Qround Bool Lia Lqa.
Import ListNotations.

Set Implicit Arguments.

(** ** Python exceptions *)

Inductive exn : Set :=
| ValueError
| IndexError
| ZeroDivisionError
| ModelError.

Inductive result (A : Type) : Type :=
| Ok (a : A)
| Raise (e : exn).

Arguments Ok {A} a.
Arguments Raise {A} e.

Definition bind {A B : Type} (m : result A) (k : A -> result B) : result B :=
  match m with
  | Ok a => k a
  | Raise e => Raise e
  end.

Notation "x <- m ;; k" := (bind m (fun x => k))
  (at level 61, m at next level, right associativity).

(** ** Floating-point values *)

Module Float.

Inductive float : Type :=
| Fin (q : Q)
| PInf
| NInf
| NaN.

Definition Qlt_bool (a b : Q) : bool := negb (Qle_bool b a).




(** [a < b]; every comparison with NaN is false. *)
Definition lt (a b : float) : bool :=
  match a, b with
  | NaN, _ | _, NaN => false
  | Fin x, Fin y => Qlt_bool x y
  | NInf, NInf => false
  | NInf, _ => true
  | _, NInf => false
  | PInf, _ => false
  | Fin _, PInf => true
  end.

Definition gt (a b : float) : bool := lt b a.

Definition sub (a b : float) : float :=
  match a, b with
  | NaN, _ | _, NaN => NaN
  | Fin x, Fin y => Fin (x - y)
  | Fin _, PInf => NInf
  | Fin _, NInf => PInf
  | PInf, PInf => NaN
  | PInf, _ => PInf
  | NInf, NInf => NaN
  | NInf, _ => NInf
  end.

(** An infinity, positive or not, times the finite [q]: NaN when [q] is
    zero, otherwise the infinity with the sign of the product. *)
Definition inf_times (positive : bool) (q : Q) : float :=
  if Qeq_bool q 0 then NaN
  else if Bool.eqb positive (Qlt_bool 0 q) then PInf else NInf.

Definition mul (a b : float) : float :=
  match a, b with
  | NaN, _ | _, NaN => NaN
  | Fin x, Fin y => Fin (x * y)
  | Fin x, PInf => inf_times true x
  | Fin x, NInf => inf_times false x
  | PInf, Fin y => inf_times true y
  | NInf, Fin y => inf_times false y
  | PInf, PInf | NInf, NInf => PInf
  | PInf, NInf | NInf, PInf => NInf
  end.

(** numpy division: a zero divisor gives an infinity or NaN, it does not
    raise. *)
Definition div (a b : float) : float :=
  match a, b with
  | NaN, _ | _, NaN => NaN
  | Fin x, Fin y =>
      if Qeq_bool y 0 then
        if Qeq_bool x 0 then NaN
        else if Qlt_bool 0 x then PInf else NInf
      else Fin (x / y)
  | Fin _, _ => Fin 0
  | PInf, Fin y => if Qlt_bool y 0 then NInf else PInf
  | NInf, Fin y => if Qlt_bool y 0 then PInf else NInf
  | _, _ => NaN
  end.

(** [np.minimum] and [np.maximum] of two scalars: NaN propagates. *)
Definition minimum (a b : float) : float :=
  match a, b with
  | NaN, _ | _, NaN => NaN
  | _, _ => if lt b a then b else a
  end.

Definition maximum (a b : float) : float :=
  match a, b with
  | NaN, _ | _, NaN => NaN
  | _, _ => if lt a b then b else a
  end.

(** [np.min] and [np.max] of a one-dimensional array; the empty array
    raises ValueError. *)
Definition np_min (l : list float) : result float :=
  match l with
  | [] => Raise ValueError
  | x :: xs => Ok (fold_left minimum xs x)
  end.

Definition np_max (l : list float) : result float :=
  match l with
  | [] => Raise ValueError
  | x :: xs => Ok (fold_left maximum xs x)
  end.

(** Python's builtin [max(a, b)]: [b] replaces [a] only when [b > a]. *)
Definition py_max (a b : float) : float :=
  if gt b a then b else a.

End Float.

Import Float.

(** ** src/sign_detector.py *)

Module SignDetector.

(** A detected keypoint as [_extract_landmarks] reads it off the detector:
    [x] and [y] in pixels, [z] the detector's relative depth.  All three are
    finite numbers. *)
Record Keypoint : Type := mkKeypoint { kx : Q; ky : Q; kz : Q }.

Definition Pose := list Keypoint.

(** [_extract_landmarks]: the flat array [x0, y0, z0, x1, y1, z1, ...]. *)
Definition _extract_landmarks (p : Pose) : list float :=
  flat_map (fun k => [Fin (kx k); Fin (ky k); Fin (kz k)]) p.

Definition row : Type := (float * float * float)%type.

(** The row of the (21, 3) array that holds a keypoint. *)
Definition row_of (k : Keypoint) : row := (Fin (kx k), Fin (ky k), Fin (kz k)).

Fixpoint rows3 (l : list float) : list row :=
  match l with
  | x :: y :: z :: r => (x, y, z) :: rows3 r
  | _ => []
  end.

(** [a.reshape(21, 3)]: ValueError unless the array has 63 elements. *)
Definition reshape_21_3 (l : list float) : result (list row) :=
  if Nat.eqb (length l) 63 then Ok (rows3 l) else Raise ValueError.

(** [a.flatten()] of a (21, 3) array. *)
Definition flatten (rs : list row) : list float :=
  flat_map (fun r : row => let '(x, y, z) := r in [x; y; z]) rs.

Definition row_sub (r w : row) : row :=
  let '(x, y, z) := r in
  let '(wx, wy, wz) := w in
  (sub x wx, sub y wy, sub z wz).

Definition col0 (r : row) : float := let '(x, _, _) := r in x.
Definition col1 (r : row) : float := let '(_, y, _) := r in y.
Definition col2 (r : row) : float := let '(_, _, z) := r in z.

(** [(v - lo) / range * 2 - 1] *)
Definition rescale (lo range v : float) : float :=
  sub (mul (div (sub v lo) range) (Fin 2)) (Fin 1).

Definition set_col0 (f : float -> float) (r : row) : row :=
  let '(x, y, z) := r in (f x, y, z).

Definition set_col1 (f : float -> float) (r : row) : row :=
  let '(x, y, z) := r in (x, f y, z).

Definition preprocess_landmarks (landmarks : option (list float))
  : result (option (list float)) :=
  match landmarks with
  | None => Ok None
  | Some l =>
      landmarks_reshaped <- reshape_21_3 l ;;
      match landmarks_reshaped with
      | [] => Raise IndexError
      | wrist :: _ =>
          let normalized_landmarks :=
            map (fun r => row_sub r wrist) landmarks_reshaped in
          let x_coords := map col0 normalized_landmarks in
          let y_coords := map col1 normalized_landmarks in
          x_min <- np_min x_coords ;;
          x_max <- np_max x_coords ;;
          y_min <- np_min y_coords ;;
          y_max <- np_max y_coords ;;
          let x_range := py_max (sub x_max x_min) (Fin 1) in
          let y_range := py_max (sub y_max y_min) (Fin 1) in
          let normalized_landmarks :=
            map (set_col0 (rescale x_min x_range)) normalized_landmarks in
          let normalized_landmarks :=
            map (set_col1 (rescale y_min y_range)) normalized_landmarks in
          Ok (Some (flatten normalized_landmarks))
      end
  end.

End SignDetector.

(** ** src/utils.py *)

Module Utils.

Import SignDetector.



End Utils.

(** ** src/config.py *)

Module Config.

Record t : Type := mk {
  GESTURE_THRESHOLD : Q;
  SMOOTHING_WINDOW : Z;
  ASL_CLASSES : list string
}.

(** The values the repository ships. *)
Definition default : t := {|
  GESTURE_THRESHOLD := 7 # 10;
  SMOOTHING_WINDOW := 5;
  ASL_CLASSES :=
    ["A"; "B"; "C"; "D"; "E"; "F"; "G"; "H"; "I"; "J";
     "K"; "L"; "M"; "N"; "O"; "P"; "Q"; "R"; "S"; "T";
     "U"; "V"; "W"; "X"; "Y"; "Z"]%string
|}.

End Config.

(** ** collections.deque(maxlen=n) *)

Module Deque.

Record deque (A : Type) : Type := mk { maxlen : nat; items : list A }.

Arguments mk {A} maxlen items.

(** [deque(maxlen=n)]: a negative [maxlen] raises ValueError. *)
Definition new {A : Type} (n : Z) : result (deque A) :=
  if (n <? 0)%Z then Raise ValueError
  else Ok (mk (Z.to_nat n) []).

(** [d.append(x)]: the item goes to the right end, then the left end is
    dropped when the length exceeds [maxlen]. *)
Definition append {A : Type} (x : A) (d : deque A) : deque A :=
  let l := items d ++ [x] in
  mk (maxlen d) (if Nat.ltb (maxlen d) (length l) then tl l else l).

Definition clear {A : Type} (d : deque A) : deque A :=
  mk (maxlen d) [].

End Deque.

(** ** dict, in insertion order *)

Module Dict.

Definition dict : Type := list (string * nat).

Definition keys (d : dict) : list string := map fst d.

Fixpoint get (k : string) (d : dict) : option nat :=
  match d with
  | [] => None
  | (k', v) :: r => if String.eqb k k' then Some v else get k r
  end.

(** [k in d] *)
Definition contains (k : string) (d : dict) : bool :=
  match get k d with Some _ => true | None => false end.

(** [d[k] = v]: an existing key keeps its place, a new key goes last. *)
Fixpoint set (k : string) (v : nat) (d : dict) : dict :=
  match d with
  | [] => [(k, v)]
  | (k', v') :: r =>
      if String.eqb k k' then (k', v) :: r else (k', v') :: set k v r
  end.

(** [d.get(k)] where a count is expected; a missing key counts 0. *)
Definition count (d : dict) (k : string) : nat :=
  match get k d with Some v => v | None => 0%nat end.

End Dict.

(** Python's [max(iterable, key=f)]: the first item with the largest key;
    ValueError on an empty iterable. *)
Definition py_max_key {A : Type} (key : A -> nat) (l : list A) : result A :=
  match l with
  | [] => Raise ValueError
  | x :: xs =>
      Ok (fold_left (fun best y => if Nat.ltb (key best) (key y) then y else best)
                    xs x)
  end.

(** [np.argmax] of a one-dimensional array: the first index of the maximum. *)
Definition np_argmax (l : list Q) : result nat :=
  match l with
  | [] => Raise ValueError
  | x :: xs =>
      let '(best_i, _, _) :=
        fold_left
          (fun (acc : nat * Q * nat) y =>
             let '(best_i, best, i) := acc in
             if Qlt_bool best y then (i, y, S i) else (best_i, best, S i))
          xs (0%nat, x, 1%nat) in
      Ok best_i
  end.

(** ** src/translator.py *)

Module SignTranslator.

Import Deque.

(** The loaded classifier: [self.model.predict(landmarks.reshape(1, -1),
    verbose=0)[0]], a probability per class, or an exception. *)
Definition classifier : Type := list float -> result (list Q).

Record state : Type := mkState {
  model : option classifier;
  prediction_history : deque (string * Q);
  current_prediction : string;
  current_confidence : Q
}.

(** Methods read and write [self] and may raise: what was written before
    an exception stays written. *)
Definition M (A : Type) : Type := state -> result A * state.

Definition ret {A : Type} (a : A) : M A := fun s => (Ok a, s).

Definition bindM {A B : Type} (m : M A) (k : A -> M B) : M B :=
  fun s =>
    match m s with
    | (Ok a, s') => k a s'
    | (Raise e, s') => (Raise e, s')
    end.

Definition lift {A : Type} (r : result A) : M A := fun s => (r, s).

Definition get_self : M state := fun s => (Ok s, s).

Definition put_self (s' : state) : M unit := fun _ => (Ok tt, s').

Definition try_exceptM {A : Type} (body : M A) (handler : exn -> M A) : M A :=
  fun s =>
    match body s with
    | (Ok a, s') => (Ok a, s')
    | (Raise e, s') => handler e s'
    end.

Notation "x <-- m ;; k" := (bindM m (fun x => k))
  (at level 61, m at next level, right associativity).
Notation "m ;;; k" := (bindM m (fun _ => k))
  (at level 61, right associativity).

(** [loaded] is what [_load_model] leaves in [self.model]:
    the model read from [model_path], or None. *)
Definition __init__ (cfg : Config.t) (loaded : option classifier) : result state :=
  h <- Deque.new (Config.SMOOTHING_WINDOW cfg) ;;
  Ok {| model := loaded;
        prediction_history := h;
        current_prediction := "";
        current_confidence := 0 |}.

(** Python's [total / n] on a float and an int. *)
Definition py_div (a : Q) (n : nat) : result Q :=
  match n with
  | O => Raise ZeroDivisionError
  | S _ => Ok (a / inject_Z (Z.of_nat n))
  end.

(** The counting loop of [_smooth_predictions]. *)
Definition tally_step (acc : Dict.dict * Q) (entry : string * Q) : Dict.dict * Q :=
  let '(prediction_counts, total_confidence) := acc in
  let '(pred, conf) := entry in
  (if Dict.contains pred prediction_counts
   then Dict.set pred (Dict.count prediction_counts pred + 1) prediction_counts
   else Dict.set pred 1 prediction_counts,
   total_confidence + conf).

Definition _smooth_predictions (history : list (string * Q)) : result (string * Q) :=
  match history with
  | [] => Ok (""%string, 0)
  | _ =>
      let '(prediction_counts, total_confidence) :=
        fold_left tally_step history ([], 0) in
      most_frequent <-
        py_max_key (Dict.count prediction_counts) (Dict.keys prediction_counts) ;;
      avg_confidence <- py_div total_confidence (length history) ;;
      Ok (most_frequent, avg_confidence)
  end.

(** Lines 61-71 of [predict]: run the classifier and gate its best class
    on [GESTURE_THRESHOLD]. *)
Definition classify (cfg : Config.t) (m : classifier) (landmarks : list float)
  : result (option (nat * Q)) :=
  predictions <- m landmarks ;;
  predicted_class_idx <- np_argmax predictions ;;
  match nth_error predictions predicted_class_idx with
  | None => Raise IndexError
  | Some confidence =>
      if Qlt_bool (Config.GESTURE_THRESHOLD cfg) confidence
      then Ok (Some (predicted_class_idx, confidence))
      else Ok None
  end.

(** [config.ASL_CLASSES[i]] *)
Definition class_name (cfg : Config.t) (i : nat) : result string :=
  match nth_error (Config.ASL_CLASSES cfg) i with
  | Some c => Ok c
  | None => Raise IndexError
  end.

(** Lines 74-83 of [predict]: the accepted prediction enters the history
    and the smoothed result becomes the current one. *)
Definition accept (predicted_sign : string) (confidence : Q) : M (string * Q) :=
  self <-- get_self ;;
  put_self {| model := model self;
              prediction_history :=
                append (predicted_sign, confidence) (prediction_history self);
              current_prediction := current_prediction self;
              current_confidence := current_confidence self |} ;;;
  self <-- get_self ;;
  smoothed <-- lift (_smooth_predictions (items (prediction_history self))) ;;
  put_self {| model := model self;
              prediction_history := prediction_history self;
              current_prediction := fst smoothed;
              current_confidence := snd smoothed |} ;;;
  ret smoothed.

Definition predict (cfg : Config.t) (landmarks : option (list float))
  : M (option string * Q) :=
  fun self =>
    match model self, landmarks with
    | Some m, Some l =>
        try_exceptM
          (gated <-- lift (classify cfg m l) ;;
           match gated with
           | Some (predicted_class_idx, confidence) =>
               predicted_sign <-- lift (class_name cfg predicted_class_idx) ;;
               smoothed <-- accept predicted_sign confidence ;;
               ret (Some (fst smoothed), snd smoothed)
           | None => ret (None, 0)
           end)
          (fun _ => ret (None, 0))
          self
    | _, _ => (Ok (None, 0), self)
    end.

Definition reset : M unit :=
  self <-- get_self ;;
  put_self {| model := model self;
              prediction_history := clear (prediction_history self);
              current_prediction := "";
              current_confidence := 0 |}.

Definition get_current_prediction : M (string * Q) :=
  self <-- get_self ;;
  ret (current_prediction self, current_confidence self).

End SignTranslator.

(** ** The normalisation, as the specification words it

    Translate every keypoint by the wrist, take the bounding box of the
    translated x and of the translated y coordinates, floor each range at 1,
    rescale x and y into [-1, 1] and leave z translated only. *)

Module NormalizeSpec.

Import SignDetector.

Definition origin : Keypoint := mkKeypoint 0 0 0.

Definition wrist (p : Pose) : Keypoint := hd origin p.

Definition translate (w k : Keypoint) : Keypoint :=
  mkKeypoint (kx k - kx w) (ky k - ky w) (kz k - kz w).

Definition translated (p : Pose) : list Keypoint :=
  map (translate (wrist p)) p.

Definition lowest (l : list Q) : Q :=
  match l with
  | [] => 0
  | x :: xs => fold_left Qmin xs x
  end.

Definition highest (l : list Q) : Q :=
  match l with
  | [] => 0
  | x :: xs => fold_left Qmax xs x
  end.

Definition x_min (p : Pose) : Q := lowest (map kx (translated p)).
Definition x_max (p : Pose) : Q := highest (map kx (translated p)).
Definition y_min (p : Pose) : Q := lowest (map ky (translated p)).
Definition y_max (p : Pose) : Q := highest (map ky (translated p)).

Definition x_range (p : Pose) : Q := Qmax (x_max p - x_min p) 1.
Definition y_range (p : Pose) : Q := Qmax (y_max p - y_min p) 1.

Definition rescaled (lo range v : Q) : Q := (v - lo) / range * 2 - 1.

Definition normalize_keypoint (p : Pose) (k : Keypoint) : Keypoint :=
  mkKeypoint (rescaled (x_min p) (x_range p) (kx k))
             (rescaled (y_min p) (y_range p) (ky k))
             (kz k).


Definition normalize (p : Pose) : list float :=
  _extract_landmarks (map (normalize_keypoint p) (translated p)).

End NormalizeSpec.

(** ** The stabiliser, as the specification words it *)

Module StabilizerSpec.

Import SignTranslator.

Definition labels (window : list (string * Q)) : list string :=
  map fst window.

Definition confidences (window : list (string * Q)) : list Q :=
  map snd window.

(** Number of entries of the window that carry the label. *)
Definition occurrences (l : string) (ls : list string) : nat :=
  count_occ string_dec ls l.

(** Position of the first entry that carries the label, counting from the
    oldest entry; the length of the window when there is none. *)
Fixpoint first_index (l : string) (ls : list string) : nat :=
  match ls with
  | [] => 0%nat
  | x :: r => if String.eqb l x then 0%nat else S (first_index l r)
  end.

Definition sum (l : list Q) : Q := fold_right Qplus 0 l.

Definition mean (l : list Q) : Q := sum l / inject_Z (Z.of_nat (length l)).

(** [d] is the tally of the labels [ls]: one key per distinct label, with
    its number of occurrences, the keys in the order in which the labels
    are first seen. *)
Definition is_tally (d : Dict.dict) (ls : list string) : Prop :=
  (forall k, In k (Dict.keys d) <-> In k ls) /\
  (forall k, Dict.count d k = occurrences k ls) /\
  (forall k1 k2, In k1 ls -> In k2 ls ->
     (first_index k1 (Dict.keys d) <= first_index k2 (Dict.keys d))%nat ->
     (first_index k1 ls <= first_index k2 ls)%nat).

(** The window of a translator. *)
Definition window (s : state) : list (string * Q) :=
  Deque.items (prediction_history s).

Definition capacity (s : state) : nat :=
  Deque.maxlen (prediction_history s).

(** The operations a client performs on a translator between two frames. *)
Inductive call : Type :=
| Accept (label : string) (confidence : Q)
| Predict (landmarks : option (list float))
| Reset.

Definition step (cfg : Config.t) (s : state) (c : call) : state :=
  match c with
  | Accept l q => snd (accept l q s)
  | Predict lm => snd (predict cfg lm s)
  | Reset => snd (reset s)
  end.

Definition run (cfg : Config.t) (calls : list call) (s : state) : state :=
  fold_left (step cfg) calls s.

(** Accept the predictions one after the other; the result of the last
    call is returned together with the final translator. *)
Definition accept_all (l : list (string * Q)) (s : state)
  : result (string * Q) * state :=
  fold_left (fun acc e => accept (fst e) (snd e) (snd acc)) l
            (Ok (current_prediction s, current_confidence s), s).

End StabilizerSpec.

(** ** Sample inputs *)

Module Examples.

Import SignDetector SignTranslator.

(** Twenty-one keypoints on a slanted line. *)
Definition example_pose : Pose :=
  map (fun i => mkKeypoint (inject_Z (Z.of_nat i) * 3)
                           (100 - inject_Z (Z.of_nat i))
                           (1 # 3))
      (seq 5 21).


(** A classifier whose best class, "B", has confidence 0.6. *)
Definition weak_classifier : classifier :=
  fun _ => Ok [1 # 10; 6 # 10; 3 # 10].

(** A classifier whose best class, "B", has confidence 0.8. *)
Definition confident_classifier : classifier :=
  fun _ => Ok [1 # 10; 8 # 10; 1 # 10].

Definition failing_classifier : classifier :=
  fun _ => Raise ModelError.

(** A classifier that returns no probability at all. *)
Definition silent_classifier : classifier :=
  fun _ => Ok [].

(** A translator with a full window, currently showing "A". *)
Definition tracking (m : option classifier) : state :=
  {| model := m;
     prediction_history :=
       Deque.mk 5 [("A"%string, 9 # 10); ("A"%string, 8 # 10);
                   ("B"%string, 95 # 100); ("A"%string, 85 # 100);
                   ("B"%string, 7 # 10)];
     current_prediction := "A";
     current_confidence := 84 # 100 |}.



(** A configuration whose list of class names is too short. *)
Definition one_class_config : Config.t :=
  Config.mk (7 # 10) 5 ["A"%string].

(** The translator right after construction with the shipped tunables. *)
Definition fresh (m : option classifier) : state :=
  {| model := m;
     prediction_history := Deque.mk 5 [];
     current_prediction := "";
     current_confidence := 0 |}.

End Examples.

(** ** numpy and Python operations used by the remaining functions *)

Module Numpy.

Definition add (a b : float) : float :=
  match a, b with
  | NaN, _ | _, NaN => NaN
  | Fin x, Fin y => Fin (x + y)
  | PInf, NInf | NInf, PInf => NaN
  | PInf, _ | _, PInf => PInf
  | NInf, _ | _, NInf => NInf
  end.

(** Elementwise operation on two arrays of the same shape. *)
Fixpoint zip_with {A : Type} (f : A -> A -> A) (a b : list A) : list A :=
  match a, b with
  | x :: a', y :: b' => f x y :: zip_with f a' b'
  | _, _ => []
  end.

(** The result of a reduction: a 0-d value or a 1-d array. *)
Inductive ndarray : Type :=
| Scalar (x : float)
| Vector (v : list float).

(** [np.mean(rows, axis=0)] of a list of 1-d arrays: the rows are added up
    one after the other and the sum is divided by their number.  No row at
    all gives the scalar NaN; rows of different lengths do not form an array
    (ValueError, numpy 1.24 and later). *)
Definition mean_axis0 (rows : list (list float)) : result ndarray :=
  match rows with
  | [] => Ok (Scalar NaN)
  | r :: rs =>
      if forallb (fun r' => Nat.eqb (length r') (length r)) rs
      then Ok (Vector (map (fun s => div s (Fin (inject_Z (Z.of_nat (length rows)))))
                           (fold_left (zip_with add) rs r)))
      else Raise ValueError
  end.

(** One bound of a slice on an axis of length [len]: a negative index counts
    from the end, and the result is clipped to [0, len]. *)
Definition slice_index (i len : Z) : Z :=
  if (i <? 0)%Z then Z.max (i + len) 0 else Z.min i len.

(** Python's [seq[start:]]. *)
Definition slice_from {A : Type} (start : Z) (l : list A) : list A :=
  skipn (Z.to_nat (slice_index start (Z.of_nat (length l)))) l.

(** [np.min] and [np.max] of a one-dimensional integer array. *)
Definition int_min (l : list Z) : result Z :=
  match l with
  | [] => Raise ValueError
  | x :: xs => Ok (fold_left Z.min xs x)
  end.

Definition int_max (l : list Z) : result Z :=
  match l with
  | [] => Raise ValueError
  | x :: xs => Ok (fold_left Z.max xs x)
  end.

(** Rounding towards zero. *)
Definition Qtruncate (q : Q) : Z :=
  if Qle_bool 0 q then Qfloor q else Qceiling q.

End Numpy.

(** ** src/utils.py, continued *)

Module UtilsMore.

Import SignDetector Numpy.

Definition calculate_hand_area (landmarks : option (list float)) : result float :=
  match landmarks with
  | None => Ok (Fin 0)
  | Some l =>
      if Nat.ltb (length l) 63 then Ok (Fin 0)
      else
        landmarks_reshaped <- reshape_21_3 l ;;
        let x_coords := map col0 landmarks_reshaped in
        let y_coords := map col1 landmarks_reshaped in
        x_hi <- np_max x_coords ;;
        x_lo <- np_min x_coords ;;
        let width := sub x_hi x_lo in
        y_hi <- np_max y_coords ;;
        y_lo <- np_min y_coords ;;
        let height := sub y_hi y_lo in
        Ok (mul width height)
  end.

Definition smooth_landmarks (landmarks_sequence : list (list float))
           (window_size : Z) : result (option ndarray) :=
  match landmarks_sequence with
  | [] => Ok None
  | _ =>
      let recent_landmarks := slice_from (- window_size) landmarks_sequence in
      smoothed <- mean_axis0 recent_landmarks ;;
      Ok (Some smoothed)
  end.

End UtilsMore.

(** ** src/sign_detector.py, continued *)

Module HandRegion.

Import SignDetector Numpy.

(** [frame.shape] of a colour frame. *)
Record frame_shape : Type := mkShape { height : nat; width : nat; channels : nat }.

(** The crop [frame[top:bottom, left:right]], bounds as numpy resolves them. *)
Record region : Type := mkRegion { top : Z; bottom : Z; left : Z; right : Z }.

Definition region_size (shape : frame_shape) (r : region) : Z :=
  Z.max 0 (bottom r - top r) * Z.max 0 (right r - left r)
  * Z.of_nat (channels shape).

Section Cast.

(** What [astype(int)] makes of NaN and of the infinities; numpy leaves it
    to the platform. *)
Variable cast_nonfinite : Z.

Definition astype_int (a : float) : Z :=
  match a with
  | Fin q => Qtruncate q
  | _ => cast_nonfinite
  end.

(** The frame is known by its shape, and the result by the region that is
    cut out of it and handed to [cv2.resize]. *)
Definition get_hand_region (frame : frame_shape)
           (landmarks : option (list float)) : result (option region) :=
  match landmarks with
  | None => Ok None
  | Some l =>
      landmarks_reshaped <- reshape_21_3 l ;;
      let x_coords := map (fun r => astype_int (col0 r)) landmarks_reshaped in
      let y_coords := map (fun r => astype_int (col1 r)) landmarks_reshaped in
      x_min <- int_min x_coords ;;
      x_max <- int_max x_coords ;;
      y_min <- int_min y_coords ;;
      y_max <- int_max y_coords ;;
      let padding := 20%Z in
      let x_min := Z.max 0 (x_min - padding) in
      let y_min := Z.max 0 (y_min - padding) in
      let x_max := Z.min (Z.of_nat (width frame)) (x_max + padding) in
      let y_max := Z.min (Z.of_nat (height frame)) (y_max + padding) in
      let hand_region :=
        {| top := slice_index y_min (Z.of_nat (height frame));
           bottom := slice_index y_max (Z.of_nat (height frame));
           left := slice_index x_min (Z.of_nat (width frame));
           right := slice_index x_max (Z.of_nat (width frame)) |} in
      if (0 <? region_size frame hand_region)%Z
      then Ok (Some hand_region)
      else Ok None
  end.

End Cast.

End HandRegion.

(** ** Notions used to state further properties *)

Module MoreSpec.

Import SignDetector SignTranslator StabilizerSpec.

(** Two floats that stand for the same value. *)
Definition float_eq (a b : float) : Prop :=
  match a, b with
  | Fin x, Fin y => x == y
  | PInf, PInf | NInf, NInf | NaN, NaN => True
  | _, _ => False
  end.

(** Two keypoints with the same coordinates. *)
Definition keypoint_eq (a b : Keypoint) : Prop :=
  kx a == kx b /\ ky a == ky b /\ kz a == kz b.

(** The pose moved by the vector [d]. *)
Definition move_keypoint (d k : Keypoint) : Keypoint :=
  mkKeypoint (kx k + kx d) (ky k + ky d) (kz k + kz d).

Definition move (d : Keypoint) (p : Pose) : Pose :=
  map (move_keypoint d) p.



(** The last [n] items of a list. *)
Definition lastn {A : Type} (n : nat) (l : list A) : list A :=
  skipn (length l - n) l.




End MoreSpec.

(** ** More sample inputs *)

Module MoreExamples.

Import SignDetector SignTranslator HandRegion Numpy.

(** An array of 63 elements with a NaN in front. *)
Definition nan_array : list float := NaN :: repeat (Fin 0) 62.

(** A 640 by 480 colour frame. *)
Definition example_frame : frame_shape := mkShape 480 640 3.

(** A hand 60 pixels beyond the right edge of [example_frame]. *)
Definition pose_right_of_frame : Pose := repeat (mkKeypoint 700 50 0) 21.

(** A hand 100 pixels to the left of [example_frame]. *)
Definition pose_left_of_frame : Pose := repeat (mkKeypoint (-100) 50 0) 21.

(** Tunables with no room in the window. *)
Definition zero_window_config : Config.t :=
  Config.mk (7 # 10) 0 (Config.ASL_CLASSES Config.default).

(** Three arrays of two numbers each. *)
Definition example_sequence : list (list Q) := [[1; 2]; [3; 4]; [5; 9]].

End MoreExamples.

(** * Properties *)

Unset Implicit Arguments.

(** ** Comparisons on rationals *)

Lemma Qlt_bool_iff (a b : Q) : Qlt_bool a b = true <-> a < b.
Proof.
  unfold Qlt_bool. rewrite negb_true_iff.
  split; intro H.
  - apply Qnot_le_lt. intro Hle. apply Qle_bool_iff in Hle. congruence.
  - destruct (Qle_bool b a) eqn:E; [|reflexivity].
    apply Qle_bool_iff in E. exfalso. exact (Qlt_not_le _ _ H E).
Qed.

Lemma Qlt_bool_false_iff (a b : Q) : Qlt_bool a b = false <-> b <= a.
Proof.
  unfold Qlt_bool. rewrite negb_false_iff. apply Qle_bool_iff.
Qed.

Lemma Qmin_lt_bool (a b : Q) : Qmin a b = if Qlt_bool b a then b else a.
Proof.
  unfold Qmin, GenericMinMax.gmin.
  destruct (Qcompare_spec a b) as [H | H | H].
  - rewrite (proj2 (Qlt_bool_false_iff b a)); [reflexivity|].
    rewrite H. apply Qle_refl.
  - rewrite (proj2 (Qlt_bool_false_iff b a)); [reflexivity|].
    now apply Qlt_le_weak.
  - now rewrite (proj2 (Qlt_bool_iff b a)).
Qed.

Lemma Qmax_lt_bool (a b : Q) : Qmax a b = if Qlt_bool a b then b else a.
Proof.
  unfold Qmax, GenericMinMax.gmax.
  destruct (Qcompare_spec a b) as [H | H | H].
  - rewrite (proj2 (Qlt_bool_false_iff a b)); [reflexivity|].
    rewrite H. apply Qle_refl.
  - now rewrite (proj2 (Qlt_bool_iff a b)).
  - rewrite (proj2 (Qlt_bool_false_iff a b)); [reflexivity|].
    now apply Qlt_le_weak.
Qed.

(** ** Arrays of finite values *)

Lemma minimum_Fin (a b : Q) : minimum (Fin a) (Fin b) = Fin (Qmin a b).
Proof.
  rewrite Qmin_lt_bool. simpl. now destruct (Qlt_bool b a).
Qed.

Lemma maximum_Fin (a b : Q) : maximum (Fin a) (Fin b) = Fin (Qmax a b).
Proof.
  rewrite Qmax_lt_bool. simpl. now destruct (Qlt_bool a b).
Qed.

Lemma fold_minimum_Fin (xs : list Q) (x : Q) :
  fold_left minimum (map Fin xs) (Fin x) = Fin (fold_left Qmin xs x).
Proof.
  revert x. induction xs as [|y ys IH]; intro x; cbn [fold_left map]; [reflexivity|].
  rewrite minimum_Fin. apply IH.
Qed.

Lemma fold_maximum_Fin (xs : list Q) (x : Q) :
  fold_left maximum (map Fin xs) (Fin x) = Fin (fold_left Qmax xs x).
Proof.
  revert x. induction xs as [|y ys IH]; intro x; cbn [fold_left map]; [reflexivity|].
  rewrite maximum_Fin. apply IH.
Qed.

Lemma py_max_Fin (r : Q) : py_max (Fin r) (Fin 1) = Fin (Qmax r 1).
Proof.
  rewrite Qmax_lt_bool. unfold py_max, gt. simpl. now destruct (Qlt_bool r 1).
Qed.





(** ** The flat array and its rows *)

Section Rows.

Import SignDetector.

Lemma extract_landmarks_cons (k : Keypoint) (p : Pose) :
  _extract_landmarks (k :: p) =
  Fin (kx k) :: Fin (ky k) :: Fin (kz k) :: _extract_landmarks p.
Proof. reflexivity. Qed.

Lemma extract_landmarks_length (p : Pose) :
  length (_extract_landmarks p) = (3 * length p)%nat.
Proof.
  induction p as [|k p IH]; [reflexivity|].
  rewrite extract_landmarks_cons. cbn [length]. rewrite IH. lia.
Qed.

Lemma rows3_extract_landmarks (p : Pose) :
  rows3 (_extract_landmarks p) = map row_of p.
Proof.
  induction p as [|k p IH]; [reflexivity|].
  rewrite extract_landmarks_cons. cbn [rows3 map]. now rewrite IH.
Qed.

Lemma flatten_map_row_of (p : Pose) :
  flatten (map row_of p) = _extract_landmarks p.
Proof.
  induction p as [|k p IH]; [reflexivity|].
  rewrite extract_landmarks_cons. cbn. now rewrite <- IH.
Qed.


End Rows.

(** ** The code computes the specified normalisation *)

Section NormalizeRefinement.

Import SignDetector NormalizeSpec.

Lemma np_min_Fin (l : list Q) :
  l <> [] -> np_min (map Fin l) = Ok (Fin (lowest l)).
Proof.
  destruct l as [|x xs]; [congruence|]. intros _.
  cbn [map np_min lowest]. now rewrite fold_minimum_Fin.
Qed.

Lemma np_max_Fin (l : list Q) :
  l <> [] -> np_max (map Fin l) = Ok (Fin (highest l)).
Proof.
  destruct l as [|x xs]; [congruence|]. intros _.
  cbn [map np_max highest]. now rewrite fold_maximum_Fin.
Qed.





Lemma range_ge_1 (r : Q) : 1 <= Qmax r 1.
Proof. apply Q.le_max_r. Qed.

Lemma range_nonzero (r : Q) : ~ Qmax r 1 == 0.
Proof.
  intro H. pose proof (range_ge_1 r) as H1. rewrite H in H1.
  revert H1. apply Qlt_not_le. reflexivity.
Qed.

Lemma rescale_Fin (lo range v : Q) :
  ~ range == 0 ->
  rescale (Fin lo) (Fin range) (Fin v) = Fin (rescaled lo range v).
Proof.
  intro H. unfold rescale, rescaled. cbn [sub div].
  destruct (Qeq_bool range 0) eqn:E.
  - apply Qeq_bool_iff in E. contradiction.
  - reflexivity.
Qed.

Lemma row_sub_row_of (k w : Keypoint) :
  row_sub (row_of k) (row_of w) = row_of (translate w k).
Proof. reflexivity. Qed.

Lemma preprocess_landmarks_refines (p : Pose) :
  length p = 21%nat ->
  preprocess_landmarks (Some (_extract_landmarks p)) = Ok (Some (normalize p)).
Proof.
  intro Hlen.
  unfold preprocess_landmarks, reshape_21_3.
  rewrite extract_landmarks_length, Hlen. cbn [Nat.mul Nat.add Nat.eqb bind].
  rewrite rows3_extract_landmarks.
  destruct p as [|w p']; [discriminate|].
  set (p := w :: p') in *.
  change (map row_of p) with (row_of w :: map row_of p') at 1.
  cbv beta iota.
  assert (Hnl : map (fun r => row_sub r (row_of w)) (map row_of p)
                = map row_of (translated p)).
  { unfold translated. rewrite !map_map. apply map_ext. intro k.
    apply row_sub_row_of. }
  rewrite Hnl.
  assert (Hx : map col0 (map row_of (translated p)) = map Fin (map kx (translated p))).
  { rewrite !map_map. reflexivity. }
  assert (Hy : map col1 (map row_of (translated p)) = map Fin (map ky (translated p))).
  { rewrite !map_map. reflexivity. }
  rewrite Hx, Hy.
  assert (Hne : forall f : Keypoint -> Q, map f (translated p) <> []).
  { intro f. unfold translated, p. discriminate. }
  rewrite (np_min_Fin _ (Hne kx)), (np_max_Fin _ (Hne kx)).
  rewrite (np_min_Fin _ (Hne ky)), (np_max_Fin _ (Hne ky)).
  cbn [bind sub]. rewrite !py_max_Fin.
  fold (x_min p) (x_max p) (y_min p) (y_max p).
  fold (x_range p) (y_range p).
  do 2 f_equal. unfold normalize.
  rewrite <- flatten_map_row_of. f_equal.
  rewrite !map_map. apply map_ext. intro k.
  unfold row_of, set_col0, set_col1, normalize_keypoint. cbn [kx ky kz].
  rewrite !rescale_Fin by apply range_nonzero.
  reflexivity.
Qed.

End NormalizeRefinement.

Section NormalizeBounds.

Import SignDetector NormalizeSpec.











End NormalizeBounds.

Import SignDetector NormalizeSpec.



(** ** The validity check *)

Section Validate.

Import Utils.


Lemma rows3_length (n : nat) (v : list float) :
  length v = (3 * n)%nat -> length (rows3 v) = n.
Proof.
  revert v. induction n as [|n IH]; intros v H.
  - destruct v; [reflexivity | discriminate].
  - destruct v as [|a [|b [|c r]]]; cbn [length] in H; try lia.
    cbn [rows3 length]. f_equal. apply IH. lia.
Qed.




End Validate.


(** ** The dictionary of counts *)

Section DictFacts.

Import Dict.

Lemma get_None (k : string) (d : dict) : get k d = None <-> ~ In k (keys d).
Proof.
  induction d as [|[k' v] d IH]; cbn [get keys map fst In].
  - tauto.
  - destruct (String.eqb_spec k k') as [-> | Hne].
    + split; [discriminate | intro H; exfalso; apply H; now left].
    + fold (keys d). rewrite IH. split.
      * intros H [E | H']; [congruence | contradiction].
      * intros H H'. apply H. now right.
Qed.

Lemma contains_iff (k : string) (d : dict) : contains k d = true <-> In k (keys d).
Proof.
  unfold contains. pose proof (get_None k d) as H.
  destruct (get k d).
  - split; [intros _ | reflexivity].
    destruct (in_dec string_dec k (keys d)) as [Hin | Hout]; [exact Hin|].
    apply H in Hout. discriminate.
  - split; [discriminate|]. intro Hin. exfalso. now apply (proj1 H).
Qed.

Lemma get_set (k k' : string) (v : nat) (d : dict) :
  get k' (set k v d) = if String.eqb k' k then Some v else get k' d.
Proof.
  induction d as [|[k0 v0] d IH]; cbn [set get].
  - destruct (String.eqb k' k); reflexivity.
  - destruct (String.eqb_spec k k0) as [-> | Hne]; cbn [get].
    + destruct (String.eqb k' k0); reflexivity.
    + rewrite IH. destruct (String.eqb_spec k' k0) as [-> | Hne'].
      * destruct (String.eqb_spec k0 k); [congruence | reflexivity].
      * reflexivity.
Qed.

Lemma keys_set (k : string) (v : nat) (d : dict) :
  keys (set k v d) = if contains k d then keys d else keys d ++ [k].
Proof.
  unfold contains.
  induction d as [|[k0 v0] d IH]; cbn [set get keys map fst app].
  - reflexivity.
  - destruct (String.eqb_spec k k0) as [-> | Hne]; cbn [keys map fst].
    + reflexivity.
    + fold (keys (set k v d)) (keys d). rewrite IH.
      destruct (get k d); reflexivity.
Qed.

Lemma count_set (k k' : string) (v : nat) (d : dict) :
  count (set k v d) k' = if String.eqb k' k then v else count d k'.
Proof.
  unfold count. rewrite get_set. destruct (String.eqb k' k); reflexivity.
Qed.

End DictFacts.

(** ** First occurrences *)

Section FirstIndex.

Import StabilizerSpec.

Lemma first_index_In (k : string) (l : list string) :
  In k l -> (first_index k l < length l)%nat.
Proof.
  induction l as [|x l IH]; [contradiction|]. cbn [first_index length].
  destruct (String.eqb_spec k x) as [-> | Hne]; [lia|].
  intros [E | H]; [congruence|]. specialize (IH H). lia.
Qed.

Lemma first_index_not_In (k : string) (l : list string) :
  ~ In k l -> first_index k l = length l.
Proof.
  induction l as [|x l IH]; [reflexivity|]. cbn [first_index length In].
  intro H. destruct (String.eqb_spec k x) as [-> | Hne]; [tauto|].
  f_equal. apply IH. tauto.
Qed.

Lemma first_index_app_In (k : string) (l l' : list string) :
  In k l -> first_index k (l ++ l') = first_index k l.
Proof.
  induction l as [|x l IH]; [contradiction|]. cbn [first_index app].
  destruct (String.eqb_spec k x) as [-> | Hne]; [reflexivity|].
  intros [E | H]; [congruence|]. f_equal. now apply IH.
Qed.

Lemma first_index_snoc_new (k : string) (l : list string) :
  ~ In k l -> first_index k (l ++ [k]) = length l.
Proof.
  induction l as [|x l IH]; cbn [first_index app length In].
  - now rewrite String.eqb_refl.
  - intro H. destruct (String.eqb_spec k x) as [-> | Hne]; [tauto|].
    f_equal. apply IH. tauto.
Qed.

Lemma occurrences_snoc (k x : string) (l : list string) :
  occurrences k (l ++ [x]) =
  (occurrences k l + if String.eqb k x then 1 else 0)%nat.
Proof.
  unfold occurrences. rewrite count_occ_app. cbn [count_occ].
  destruct (string_dec x k) as [-> | Hne].
  - now rewrite String.eqb_refl.
  - destruct (String.eqb_spec k x); [congruence | reflexivity].
Qed.

Lemma occurrences_In (k : string) (l : list string) :
  In k l <-> (0 < occurrences k l)%nat.
Proof. apply count_occ_In. Qed.

End FirstIndex.

(** ** [max(d, key=d.get)] returns the first key with the largest count *)

Section FirstMaximum.

Import StabilizerSpec.

Variable key : string -> nat.

Lemma fold_pick_first_max (xs : list string) (x : string) :
  let r := fold_left (fun best y => if Nat.ltb (key best) (key y) then y else best)
                     xs x in
  In r (x :: xs) /\
  (forall k, In k (x :: xs) -> (key k <= key r)%nat) /\
  (forall k, In k (x :: xs) -> key k = key r ->
             (first_index r (x :: xs) <= first_index k (x :: xs))%nat).
Proof.
  induction xs as [|y ys IH] using rev_ind; cbn zeta.
  - cbn [fold_left]. split; [now left|]. split.
    + intros k [<- | []]. lia.
    + intros k [<- | []] _. lia.
  - rewrite fold_left_app. cbn [fold_left].
    set (r := fold_left _ ys x) in *. cbn zeta in IH.
    destruct IH as (Hin & Hmax & Hfirst).
    change (x :: ys ++ [y]) with ((x :: ys) ++ [y]).
    set (pre := x :: ys) in *.
    destruct (Nat.ltb_spec (key r) (key y)) as [Hlt | Hge].
    + split; [apply in_or_app; right; now left|]. split.
      * intros k Hk. apply in_app_or in Hk. destruct Hk as [Hk | [<- | []]]; [|lia].
        specialize (Hmax k Hk). lia.
      * intros k Hk E. apply in_app_or in Hk. destruct Hk as [Hk | [<- | []]]; [|lia].
        specialize (Hmax k Hk). lia.
    + split; [apply in_or_app; now left|]. split.
      * intros k Hk. apply in_app_or in Hk. destruct Hk as [Hk | [<- | []]]; [|lia].
        now apply Hmax.
      * intros k Hk E. rewrite (first_index_app_In r pre [y] Hin).
        destruct (in_dec string_dec k pre) as [Hk' | Hk'].
        -- rewrite (first_index_app_In k pre [y] Hk'). now apply Hfirst.
        -- apply in_app_or in Hk. destruct Hk as [Hk | [<- | []]]; [contradiction|].
           rewrite (first_index_snoc_new y pre Hk').
           pose proof (first_index_In r pre Hin). lia.
Qed.

End FirstMaximum.

(** ** The counting loop *)

Section Tally.

Import Dict SignTranslator StabilizerSpec.

Lemma is_tally_nil : is_tally [] [].
Proof.
  split; [|split].
  - intro k. reflexivity.
  - intro k. reflexivity.
  - intros k1 k2 [].
Qed.

Lemma tally_step_is_tally (d : dict) (t : Q) (x : string) (c : Q) (p : list string) :
  is_tally d p ->
  is_tally (fst (tally_step (d, t) (x, c))) (p ++ [x]).
Proof.
  intros (Hkeys & Hcount & Horder). cbn [tally_step fst].
  destruct (contains x d) eqn:Ec.
  - assert (Hx : In x p) by (apply Hkeys; now apply contains_iff).
    assert (Hin : forall k, In k (p ++ [x]) <-> In k p).
    { intro k. rewrite in_app_iff. cbn [In]. split; [|tauto].
      intros [H | [<- | []]]; assumption. }
    split; [|split].
    + intro k. rewrite keys_set, Ec, Hin. apply Hkeys.
    + intro k. rewrite count_set, occurrences_snoc, !Hcount.
      destruct (String.eqb_spec k x) as [-> | _]; lia.
    + intros k1 k2 H1 H2. rewrite keys_set, Ec.
      apply Hin in H1. apply Hin in H2.
      rewrite !first_index_app_In by assumption. now apply Horder.
  - assert (Hk : ~ In x (keys d)).
    { intro H. apply contains_iff in H. congruence. }
    assert (Hx : ~ In x p) by (intro H; apply Hk; now apply Hkeys).
    split; [|split].
    + intro k. rewrite keys_set, Ec, !in_app_iff, Hkeys. reflexivity.
    + intro k. rewrite count_set, occurrences_snoc, !Hcount.
      destruct (String.eqb_spec k x) as [-> | _]; [|lia].
      unfold occurrences. rewrite (proj1 (count_occ_not_In string_dec p x) Hx).
      reflexivity.
    + intros k1 k2 H1 H2. rewrite keys_set, Ec.
      apply in_app_or in H1. apply in_app_or in H2.
      destruct H1 as [H1 | [<- | []]]; destruct H2 as [H2 | [<- | []]].
      * rewrite !first_index_app_In by (assumption || now apply Hkeys).
        now apply Horder.
      * intros _. rewrite (first_index_app_In k1 p [x] H1).
        rewrite (first_index_snoc_new x p Hx).
        pose proof (first_index_In k1 p H1). lia.
      * rewrite (first_index_snoc_new x (keys d) Hk).
        rewrite (first_index_app_In k2 (keys d) [x]) by now apply Hkeys.
        pose proof (first_index_In k2 (keys d) (proj2 (Hkeys k2) H2)). lia.
      * lia.
Qed.

Lemma fold_tally_step_is_tally (h : list (string * Q)) (d : dict) (t : Q)
      (p : list string) :
  is_tally d p ->
  is_tally (fst (fold_left tally_step h (d, t))) (p ++ labels h).
Proof.
  revert d t p. induction h as [|[x c] h IH]; intros d t p H.
  - cbn [fold_left fst labels map]. now rewrite app_nil_r.
  - cbn [fold_left labels map fst].
    change (p ++ x :: map fst h) with (p ++ [x] ++ labels h).
    rewrite app_assoc.
    pose proof (tally_step_is_tally d t x c p H) as H'.
    destruct (tally_step (d, t) (x, c)) as [d' t'].
    now apply IH.
Qed.

Lemma fold_tally_step_total (h : list (string * Q)) (d : dict) (t : Q) :
  snd (fold_left tally_step h (d, t)) == t + sum (confidences h).
Proof.
  revert d t. induction h as [|[x c] h IH]; intros d t.
  - cbn. ring.
  - cbn [fold_left confidences map snd sum fold_right].
    unfold tally_step at 2.
    rewrite IH. fold (confidences h). fold (sum (confidences h)). ring.
Qed.

(** What [_smooth_predictions] returns on a window that is not empty. *)
Lemma smooth_predictions_nonempty (h : list (string * Q)) :
  h <> [] ->
  exists lbl c,
    _smooth_predictions h = Ok (lbl, c) /\
    c == mean (confidences h) /\
    In lbl (labels h) /\
    (forall l, (occurrences l (labels h) <= occurrences lbl (labels h))%nat) /\
    (forall l, In l (labels h) ->
               occurrences l (labels h) = occurrences lbl (labels h) ->
               (first_index lbl (labels h) <= first_index l (labels h))%nat).
Proof.
  intro Hne. destruct h as [|e h']; [congruence|].
  set (h := e :: h') in *.
  unfold _smooth_predictions. unfold h at 1. fold h.
  set (acc := fold_left tally_step h _).
  assert (Ht : is_tally (fst acc) (labels h))
    by exact (fold_tally_step_is_tally h [] 0 [] is_tally_nil).
  assert (Hs : snd acc == 0 + sum (confidences h))
    by exact (fold_tally_step_total h [] 0).
  clearbody acc. destruct acc as [d total].
  cbn [fst snd] in Ht, Hs. destruct Ht as (Hkeys & Hcount & Horder).
  destruct (keys d) as [|k0 ks] eqn:Ek.
  { exfalso. apply (proj2 (Hkeys (fst e))). now left. }
  cbn [py_max_key bind].
  pose proof (fold_pick_first_max (count d) ks k0) as Hmax. cbn zeta in Hmax.
  set (r := fold_left _ ks k0) in *.
  destruct Hmax as (Hin & Hle & Hfirst).
  unfold h at 1. cbn [length py_div bind].
  exists r, (total / inject_Z (Z.of_nat (S (length h')))).
  split; [reflexivity|]. split; [|split; [|split]].
  - unfold mean. rewrite Hs, Qplus_0_l.
    replace (length (confidences h)) with (S (length h'))
      by (unfold confidences; rewrite length_map; reflexivity).
    reflexivity.
  - now apply Hkeys.
  - intro l. destruct (in_dec string_dec l (labels h)) as [Hl | Hl].
    + rewrite <- !Hcount. apply Hle. now apply Hkeys.
    + unfold occurrences at 1.
      rewrite (proj1 (count_occ_not_In string_dec (labels h) l) Hl). lia.
  - intros l Hl E. apply Horder; [now apply Hkeys | exact Hl |].
    apply Hfirst; [now apply Hkeys|]. now rewrite !Hcount.
Qed.

Lemma accept_unfold (sign : string) (conf : Q) (s : state) :
  let h := Deque.append (sign, conf) (prediction_history s) in
  accept sign conf s =
  match _smooth_predictions (Deque.items h) with
  | Ok smoothed =>
      (Ok smoothed,
       {| model := model s; prediction_history := h;
          current_prediction := fst smoothed;
          current_confidence := snd smoothed |})
  | Raise e =>
      (Raise e,
       {| model := model s; prediction_history := h;
          current_prediction := current_prediction s;
          current_confidence := current_confidence s |})
  end.
Proof.
  cbn zeta. unfold accept, bindM, get_self, put_self, lift, ret.
  cbn [model prediction_history current_prediction current_confidence].
  destruct (_smooth_predictions _); reflexivity.
Qed.

Lemma append_items {A : Type} (x : A) (d : Deque.deque A) :
  Deque.items (Deque.append x d) =
  if Nat.ltb (Deque.maxlen d) (length (Deque.items d ++ [x]))
  then tl (Deque.items d ++ [x]) else Deque.items d ++ [x].
Proof. reflexivity. Qed.

Lemma append_nonempty {A : Type} (x : A) (d : Deque.deque A) :
  (0 < Deque.maxlen d)%nat -> Deque.items (Deque.append x d) <> [].
Proof.
  intro H. rewrite append_items.
  destruct (Nat.ltb_spec (Deque.maxlen d) (length (Deque.items d ++ [x]))) as [L | L].
  - destruct (Deque.items d) as [|a [|b l]]; cbn in *; try lia; discriminate.
  - destruct (Deque.items d); discriminate.
Qed.

Lemma append_length {A : Type} (x : A) (d : Deque.deque A) :
  (length (Deque.items d) <= Deque.maxlen d)%nat ->
  (length (Deque.items (Deque.append x d)) <= Deque.maxlen d)%nat.
Proof.
  intro H. rewrite append_items.
  destruct (Nat.ltb_spec (Deque.maxlen d) (length (Deque.items d ++ [x]))) as [L | L].
  - rewrite length_app in L. cbn [length] in L.
    destruct (Deque.items d) as [|a l]; cbn [app tl length] in *; [lia|].
    rewrite length_app. cbn [length]. lia.
  - exact L.
Qed.

End Tally.

(** ** The translator *)

Section Translator.

Import SignTranslator StabilizerSpec.

Lemma smooth_predictions_returns (h : list (string * Q)) :
  exists r, _smooth_predictions h = Ok r.
Proof.
  destruct h as [|e h'] eqn:E.
  - now exists (""%string, 0).
  - destruct (smooth_predictions_nonempty (e :: h')) as (lbl & c & H & _);
      [discriminate|].
    now exists (lbl, c).
Qed.

Lemma accept_returns (sign : string) (conf : Q) (s : state) :
  exists r,
    _smooth_predictions (Deque.items (Deque.append (sign, conf) (prediction_history s)))
    = Ok r /\
    accept sign conf s =
    (Ok r, {| model := model s;
              prediction_history := Deque.append (sign, conf) (prediction_history s);
              current_prediction := fst r;
              current_confidence := snd r |}).
Proof.
  destruct (smooth_predictions_returns
              (Deque.items (Deque.append (sign, conf) (prediction_history s))))
    as [r Hr].
  exists r. split; [exact Hr|].
  pose proof (accept_unfold sign conf s) as H. cbn zeta in H.
  now rewrite Hr in H.
Qed.

Lemma predict_absent (cfg : Config.t) (s : state) :
  predict cfg None s = (Ok (None, 0), s).
Proof. unfold predict. now destruct (model s). Qed.

Lemma predict_no_model (cfg : Config.t) (lm : option (list float)) (s : state) :
  model s = None -> predict cfg lm s = (Ok (None, 0), s).
Proof. intro H. unfold predict. now rewrite H. Qed.

Lemma predict_classify (cfg : Config.t) (m : classifier) (l : list float) (s : state) :
  model s = Some m ->
  predict cfg (Some l) s =
  match classify cfg m l with
  | Raise _ => (Ok (None, 0), s)
  | Ok None => (Ok (None, 0), s)
  | Ok (Some (i, q)) =>
      match class_name cfg i with
      | Raise _ => (Ok (None, 0), s)
      | Ok sign =>
          match accept sign q s with
          | (Ok r, s') => (Ok (Some (fst r), snd r), s')
          | (Raise _, s') => (Ok (None, 0), s')
          end
      end
  end.
Proof.
  intro Hm. unfold predict. rewrite Hm.
  unfold try_exceptM, bindM, lift, ret.
  destruct (classify cfg m l) as [[[i q]|]|e]; try reflexivity.
  destruct (class_name cfg i) as [sign|e]; try reflexivity.
  destruct (accept sign q s) as [[r|e] s']; reflexivity.
Qed.

Lemma predict_cases (cfg : Config.t) (lm : option (list float)) (s : state) :
  predict cfg lm s = (Ok (None, 0), s) \/
  exists sign conf r s',
    accept sign conf s = (Ok r, s') /\
    predict cfg lm s = (Ok (Some (fst r), snd r), s').
Proof.
  destruct lm as [l|]; [|left; apply predict_absent].
  destruct (model s) as [m|] eqn:Hm; [|left; now apply predict_no_model].
  rewrite (predict_classify cfg m l s Hm).
  destruct (classify cfg m l) as [[[i q]|]|e]; auto.
  destruct (class_name cfg i) as [sign|e]; auto.
  destruct (accept_returns sign q s) as (r & _ & Hr).
  right. exists sign, q, r. eexists. split; [exact Hr|]. now rewrite Hr.
Qed.

Lemma classify_rejects (cfg : Config.t) (m : classifier) (l : list float) :
  (forall e, m l = Raise e -> classify cfg m l = Raise e) /\
  (forall probs e, m l = Ok probs -> np_argmax probs = Raise e ->
                   classify cfg m l = Raise e) /\
  (forall probs i c, m l = Ok probs -> np_argmax probs = Ok i ->
                     nth_error probs i = Some c ->
                     c <= Config.GESTURE_THRESHOLD cfg ->
                     classify cfg m l = Ok None) /\
  (forall probs i c, m l = Ok probs -> np_argmax probs = Ok i ->
                     nth_error probs i = Some c ->
                     Config.GESTURE_THRESHOLD cfg < c ->
                     classify cfg m l = Ok (Some (i, c))).
Proof.
  unfold classify. repeat split.
  - intros e ->. reflexivity.
  - intros probs e -> H. cbn [bind]. now rewrite H.
  - intros probs i c -> Hi Hc Hle. cbn [bind]. rewrite Hi. cbn [bind].
    rewrite Hc. now rewrite (proj2 (Qlt_bool_false_iff _ _) Hle).
  - intros probs i c -> Hi Hc Hlt. cbn [bind]. rewrite Hi. cbn [bind].
    rewrite Hc. now rewrite (proj2 (Qlt_bool_iff _ _) Hlt).
Qed.

(** The window never outgrows the capacity, whatever is called. *)
Lemma step_bounded (cfg : Config.t) (c : call) (s : state) :
  (length (window s) <= capacity s)%nat ->
  capacity (step cfg s c) = capacity s /\
  (length (window (step cfg s c)) <= capacity s)%nat.
Proof.
  intro H.
  assert (Hacc : forall sign conf,
             capacity (snd (accept sign conf s)) = capacity s /\
             (length (window (snd (accept sign conf s))) <= capacity s)%nat).
  { intros sign conf. destruct (accept_returns sign conf s) as (r & _ & ->).
    split; [reflexivity|]. now apply append_length. }
  destruct c as [sign conf | lm |]; cbn [step].
  - apply Hacc.
  - destruct (predict_cases cfg lm s) as [-> | (sign & conf & r & s' & Ha & ->)].
    + now split.
    + cbn [snd]. replace s' with (snd (accept sign conf s)) by now rewrite Ha.
      apply Hacc.
  - split; [reflexivity|]. cbn. lia.
Qed.

Lemma run_bounded (cfg : Config.t) (calls : list call) (s : state) :
  (length (window s) <= capacity s)%nat ->
  capacity (run cfg calls s) = capacity s /\
  (length (window (run cfg calls s)) <= capacity s)%nat.
Proof.
  revert s. induction calls as [|c calls IH]; intros s H; [now split|].
  cbn [run fold_left]. fold (run cfg calls (step cfg s c)).
  destruct (step_bounded cfg c s H) as [Hc Hl].
  rewrite <- Hc in Hl. destruct (IH _ Hl) as [Hc' Hl'].
  rewrite Hc' in *. rewrite Hc in *. now split.
Qed.

Lemma init_ok (cfg : Config.t) (loaded : option classifier) :
  (0 <= Config.SMOOTHING_WINDOW cfg)%Z ->
  __init__ cfg loaded =
  Ok {| model := loaded;
        prediction_history := Deque.mk (Z.to_nat (Config.SMOOTHING_WINDOW cfg)) [];
        current_prediction := "";
        current_confidence := 0 |}.
Proof.
  intro H. unfold __init__, Deque.new.
  destruct (Z.ltb_spec (Config.SMOOTHING_WINDOW cfg) 0); [lia | reflexivity].
Qed.

Lemma predict_returns (cfg : Config.t) (lm : option (list float)) (s : state) :
  exists v, fst (predict cfg lm s) = Ok v.
Proof.
  destruct (predict_cases cfg lm s) as [-> | (sign & conf & r & s' & _ & ->)];
    eexists; reflexivity.
Qed.

End Translator.

Import SignTranslator StabilizerSpec.

(** C2.  On a window that is not empty [_smooth_predictions] returns a label
    of the window with the highest number of occurrences, and among the
    labels that tie for that number the one whose first entry is the oldest.
    [accept] returns that label for the window it has just extended and makes
    it the current prediction.  Accepting ("A", 0.9) then ("B", 0.9) with an
    empty window gives "A". *)
Theorem smooth_predictions_majority :
  (forall h : list (string * Q),
     h <> [] ->
     exists lbl c,
       _smooth_predictions h = Ok (lbl, c) /\
       In lbl (labels h) /\
       (forall l, (occurrences l (labels h) <= occurrences lbl (labels h))%nat) /\
       (forall l, In l (labels h) ->
                  occurrences l (labels h) = occurrences lbl (labels h) ->
                  (first_index lbl (labels h) <= first_index l (labels h))%nat)) /\
  (forall (s : state) (sign : string) (conf : Q),
     (0 < capacity s)%nat ->
     exists lbl c s',
       accept sign conf s = (Ok (lbl, c), s') /\
       window s' <> [] /\
       _smooth_predictions (window s') = Ok (lbl, c) /\
       current_prediction s' = lbl) /\
  (forall (loaded : option classifier) (s0 : state),
     __init__ Config.default loaded = Ok s0 ->
     exists c,
       fst (accept_all [("A"%string, 9 # 10); ("B"%string, 9 # 10)] s0)
       = Ok ("A"%string, c)).
Proof.
  split; [|split].
  - intros h Hne.
    destruct (smooth_predictions_nonempty h Hne) as (lbl & c & H & _ & H').
    now exists lbl, c.
  - intros s sign conf Hcap.
    destruct (accept_returns sign conf s) as ([lbl c] & Hr & Ha).
    exists lbl, c. eexists. split; [exact Ha|].
    unfold window. cbn [prediction_history current_prediction fst].
    split; [now apply append_nonempty|]. now split.
  - intros loaded s0 H. rewrite init_ok in H by (cbn; lia).
    injection H as <-. eexists. vm_compute. reflexivity.
Qed.


(** C4.  From a translator built with the shipped configuration, after any
    sequence of accept, predict and reset calls the capacity of the window is
    5 and its length is at most 5; and an accept on a full window drops
    exactly the oldest entry and keeps the others in their order, followed
    by the new entry. *)
Theorem history_window_bounded :
  (forall (loaded : option classifier) (s0 : state) (calls : list call),
     __init__ Config.default loaded = Ok s0 ->
     capacity (run Config.default calls s0) = 5%nat /\
     (length (window (run Config.default calls s0)) <= 5)%nat) /\
  (forall (s : state) (sign : string) (conf : Q) (oldest : string * Q)
          (rest : list (string * Q)),
     window s = oldest :: rest ->
     length (window s) = capacity s ->
     window (snd (accept sign conf s)) = rest ++ [(sign, conf)] /\
     length (window (snd (accept sign conf s))) = capacity s).
Proof.
  split.
  - intros loaded s0 calls H. rewrite init_ok in H by (cbn; lia).
    injection H as <-.
    apply (run_bounded Config.default calls). cbn. lia.
  - intros s sign conf oldest rest Hw Hfull.
    destruct (accept_returns sign conf s) as (r & _ & ->).
    unfold window, capacity in *. cbn [snd prediction_history].
    rewrite append_items, Hw in *.
    cbn [app length] in *. rewrite length_app. cbn [length].
    replace (Deque.maxlen (prediction_history s) <? S (length rest + 1))%nat
      with true by (symmetry; apply Nat.ltb_lt; lia).
    cbn [tl]. rewrite length_app. cbn [length]. split; [reflexivity | lia].
Qed.

(** C6.  A call of [predict] with no landmarks, with no model, with a
    classifier that raises, with a best class whose confidence is not above
    the threshold, or with a best class that has no name, leaves the
    translator exactly as it was: the history, the current prediction and
    the current confidence are those from before the call. *)
Theorem predict_rejected_keeps_state (cfg : Config.t) (s : state) :
  snd (predict cfg None s) = s /\
  (forall lm, model s = None -> snd (predict cfg lm s) = s) /\
  (forall m l e,
     model s = Some m -> m l = Raise e -> snd (predict cfg (Some l) s) = s) /\
  (forall m l probs e,
     model s = Some m -> m l = Ok probs -> np_argmax probs = Raise e ->
     snd (predict cfg (Some l) s) = s) /\
  (forall m l probs i c,
     model s = Some m -> m l = Ok probs -> np_argmax probs = Ok i ->
     nth_error probs i = Some c -> c <= Config.GESTURE_THRESHOLD cfg ->
     snd (predict cfg (Some l) s) = s) /\
  (forall m l probs i c e,
     model s = Some m -> m l = Ok probs -> np_argmax probs = Ok i ->
     nth_error probs i = Some c -> Config.GESTURE_THRESHOLD cfg < c ->
     class_name cfg i = Raise e ->
     snd (predict cfg (Some l) s) = s) /\
  (forall lm,
     snd (predict cfg lm s) = s ->
     fst (get_current_prediction (snd (predict cfg lm s)))
     = Ok (current_prediction s, current_confidence s)).
Proof.
  split; [now rewrite predict_absent|].
  split; [intros lm H; now rewrite predict_no_model|].
  split; [|split; [|split; [|split]]].
  - intros m l e Hm H. rewrite (predict_classify cfg m l s Hm).
    now rewrite (proj1 (classify_rejects cfg m l) e H).
  - intros m l probs e Hm H Ha. rewrite (predict_classify cfg m l s Hm).
    destruct (classify_rejects cfg m l) as (_ & Hc & _).
    now rewrite (Hc probs e H Ha).
  - intros m l probs i c Hm H Ha Hn Hle. rewrite (predict_classify cfg m l s Hm).
    destruct (classify_rejects cfg m l) as (_ & _ & Hc & _).
    now rewrite (Hc probs i c H Ha Hn Hle).
  - intros m l probs i c e Hm H Ha Hn Hlt Hname.
    rewrite (predict_classify cfg m l s Hm).
    destruct (classify_rejects cfg m l) as (_ & _ & _ & Hc).
    now rewrite (Hc probs i c H Ha Hn Hlt), Hname.
  - intros lm ->. reflexivity.
Qed.

(** C7.  [reset] never raises; after it the current prediction is the pair
    of the empty string and 0 and the window is empty, whatever the state
    was; a second [reset] changes nothing. *)
Theorem reset_idempotent (s : state) :
  fst (reset s) = Ok tt /\
  fst (get_current_prediction (snd (reset s))) = Ok (""%string, 0) /\
  window (snd (reset s)) = [] /\
  reset (snd (reset s)) = (Ok tt, snd (reset s)).
Proof.
  unfold reset, get_current_prediction, bindM, get_self, put_self, ret, window.
  cbn [fst snd prediction_history current_prediction current_confidence
       Deque.clear Deque.items Deque.maxlen model].
  repeat split.
Qed.


(** C10.  [predict] never raises.  With no landmarks, with no model loaded,
    or when the classification raises, it returns (None, 0.0) and leaves the
    translator as it was; the current prediction is then still what
    [get_current_prediction] returns. *)
Theorem predict_total (cfg : Config.t) (landmarks : option (list float))
        (s : state) :
  (exists v, fst (predict cfg landmarks s) = Ok v) /\
  predict cfg None s = (Ok (None, 0), s) /\
  (model s = None -> predict cfg landmarks s = (Ok (None, 0), s)) /\
  (forall m l e,
     model s = Some m -> landmarks = Some l -> classify cfg m l = Raise e ->
     predict cfg landmarks s = (Ok (None, 0), s)) /\
  (forall m l i c e,
     model s = Some m -> landmarks = Some l ->
     classify cfg m l = Ok (Some (i, c)) -> class_name cfg i = Raise e ->
     predict cfg landmarks s = (Ok (None, 0), s)) /\
  (predict cfg landmarks s = (Ok (None, 0), s) ->
     get_current_prediction (snd (predict cfg landmarks s))
     = (Ok (current_prediction s, current_confidence s), s)).
Proof.
  split; [apply predict_returns|].
  split; [apply predict_absent|].
  split; [apply predict_no_model|].
  split; [|split].
  - intros m l e Hm -> H. now rewrite (predict_classify cfg m l s Hm), H.
  - intros m l i c e Hm -> H Hn.
    now rewrite (predict_classify cfg m l s Hm), H, Hn.
  - intros ->. reflexivity.
Qed.

(** ** The theorems at sample inputs *)

Import Examples.




Lemma smooth_predictions_majority_witness :
  ([("B"%string, 9 # 10); ("A"%string, 8 # 10); ("A"%string, 8 # 10);
    ("B"%string, 9 # 10)] <> [] /\
   exists lbl c,
     _smooth_predictions [("B"%string, 9 # 10); ("A"%string, 8 # 10);
                          ("A"%string, 8 # 10); ("B"%string, 9 # 10)]
     = Ok (lbl, c) /\
     In lbl ["B"; "A"; "A"; "B"]%string /\
     (forall l, (occurrences l ["B"; "A"; "A"; "B"]%string
                 <= occurrences lbl ["B"; "A"; "A"; "B"]%string)%nat) /\
     (forall l, In l ["B"; "A"; "A"; "B"]%string ->
                occurrences l ["B"; "A"; "A"; "B"]%string
                = occurrences lbl ["B"; "A"; "A"; "B"]%string ->
                (first_index lbl ["B"; "A"; "A"; "B"]%string
                 <= first_index l ["B"; "A"; "A"; "B"]%string)%nat)) /\
  ((0 < capacity (tracking None))%nat /\
   exists lbl c s',
     accept "B" (99 # 100) (tracking None) = (Ok (lbl, c), s') /\
     window s' <> [] /\
     _smooth_predictions (window s') = Ok (lbl, c) /\
     current_prediction s' = lbl) /\
  (__init__ Config.default None = Ok (fresh None) /\
   exists c,
     fst (accept_all [("A"%string, 9 # 10); ("B"%string, 9 # 10)] (fresh None))
     = Ok ("A"%string, c)).
Proof.
  split; [|split].
  - split; [discriminate|].
    apply (proj1 smooth_predictions_majority). discriminate.
  - split; [cbn; lia|].
    apply (proj1 (proj2 smooth_predictions_majority)). cbn. lia.
  - split; [reflexivity|].
    apply (proj2 (proj2 smooth_predictions_majority) None). reflexivity.
Defined.


Lemma history_window_bounded_witness :
  (__init__ Config.default (Some confident_classifier)
   = Ok (fresh (Some confident_classifier)) /\
   capacity (run Config.default
                 [Predict (Some []); Accept "A" (9 # 10); Reset; Predict None]
                 (fresh (Some confident_classifier))) = 5%nat /\
   (length (window (run Config.default
                        [Predict (Some []); Accept "A" (9 # 10); Reset; Predict None]
                        (fresh (Some confident_classifier)))) <= 5)%nat) /\
  (window (tracking None)
   = ("A"%string, 9 # 10) ::
     [("A"%string, 8 # 10); ("B"%string, 95 # 100); ("A"%string, 85 # 100);
      ("B"%string, 7 # 10)] /\
   length (window (tracking None)) = capacity (tracking None) /\
   window (snd (accept "B" (99 # 100) (tracking None)))
   = [("A"%string, 8 # 10); ("B"%string, 95 # 100); ("A"%string, 85 # 100);
      ("B"%string, 7 # 10)] ++ [("B"%string, 99 # 100)] /\
   length (window (snd (accept "B" (99 # 100) (tracking None))))
   = capacity (tracking None)).
Proof.
  split.
  - split; [reflexivity|].
    apply (proj1 history_window_bounded (Some confident_classifier)). reflexivity.
  - split; [reflexivity|]. split; [reflexivity|].
    exact (proj2 history_window_bounded (tracking None) "B"%string (99 # 100)
                 ("A"%string, 9 # 10) _ eq_refl eq_refl).
Defined.

Lemma predict_rejected_keeps_state_witness :
  (model (tracking None) = None /\
   snd (predict Config.default (Some []) (tracking None)) = tracking None) /\
  (model (tracking (Some failing_classifier)) = Some failing_classifier /\
   failing_classifier [] = Raise ModelError /\
   snd (predict Config.default (Some []) (tracking (Some failing_classifier)))
   = tracking (Some failing_classifier)) /\
  (model (tracking (Some silent_classifier)) = Some silent_classifier /\
   silent_classifier [] = Ok [] /\
   np_argmax [] = Raise ValueError /\
   snd (predict Config.default (Some []) (tracking (Some silent_classifier)))
   = tracking (Some silent_classifier)) /\
  (model (tracking (Some weak_classifier)) = Some weak_classifier /\
   weak_classifier [] = Ok [1 # 10; 6 # 10; 3 # 10] /\
   np_argmax [1 # 10; 6 # 10; 3 # 10] = Ok 1%nat /\
   nth_error [1 # 10; 6 # 10; 3 # 10] 1 = Some (6 # 10) /\
   6 # 10 <= Config.GESTURE_THRESHOLD Config.default /\
   snd (predict Config.default (Some []) (tracking (Some weak_classifier)))
   = tracking (Some weak_classifier)) /\
  (model (tracking (Some confident_classifier)) = Some confident_classifier /\
   confident_classifier [] = Ok [1 # 10; 8 # 10; 1 # 10] /\
   np_argmax [1 # 10; 8 # 10; 1 # 10] = Ok 1%nat /\
   nth_error [1 # 10; 8 # 10; 1 # 10] 1 = Some (8 # 10) /\
   Config.GESTURE_THRESHOLD one_class_config < 8 # 10 /\
   class_name one_class_config 1 = Raise IndexError /\
   snd (predict one_class_config (Some []) (tracking (Some confident_classifier)))
   = tracking (Some confident_classifier)) /\
  (snd (predict Config.default None (tracking None)) = tracking None /\
   fst (get_current_prediction (snd (predict Config.default None (tracking None))))
   = Ok ("A"%string, 84 # 100)).
Proof.
  assert (Hle : 6 # 10 <= Config.GESTURE_THRESHOLD Config.default)
    by (unfold Qle; cbn; lia).
  assert (Hlt : Config.GESTURE_THRESHOLD one_class_config < 8 # 10)
    by reflexivity.
  split; [|split; [|split; [|split; [|split]]]].
  - split; [reflexivity|].
    apply (proj1 (proj2 (predict_rejected_keeps_state Config.default (tracking None)))).
    reflexivity.
  - split; [reflexivity|]. split; [reflexivity|].
    destruct (predict_rejected_keeps_state Config.default
                (tracking (Some failing_classifier))) as (_ & _ & H & _).
    exact (H failing_classifier [] ModelError eq_refl eq_refl).
  - split; [reflexivity|]. split; [reflexivity|]. split; [reflexivity|].
    destruct (predict_rejected_keeps_state Config.default
                (tracking (Some silent_classifier))) as (_ & _ & _ & H & _).
    exact (H silent_classifier [] [] ValueError eq_refl eq_refl eq_refl).
  - repeat (split; [first [reflexivity | exact Hle]|]).
    destruct (predict_rejected_keeps_state Config.default
                (tracking (Some weak_classifier))) as (_ & _ & _ & _ & H & _).
    exact (H weak_classifier [] _ 1%nat (6 # 10) eq_refl eq_refl eq_refl eq_refl Hle).
  - repeat (split; [first [reflexivity | exact Hlt]|]).
    destruct (predict_rejected_keeps_state one_class_config
                (tracking (Some confident_classifier)))
      as (_ & _ & _ & _ & _ & H & _).
    exact (H confident_classifier [] _ 1%nat (8 # 10) IndexError
             eq_refl eq_refl eq_refl eq_refl Hlt eq_refl).
  - split; [reflexivity|].
    destruct (predict_rejected_keeps_state Config.default (tracking None))
      as (_ & _ & _ & _ & _ & _ & H).
    exact (H None eq_refl).
Defined.


Lemma predict_total_witness :
  (model (tracking None) = None /\
   predict Config.default (Some []) (tracking None) = (Ok (None, 0), tracking None)) /\
  (model (tracking (Some failing_classifier)) = Some failing_classifier /\
   classify Config.default failing_classifier [] = Raise ModelError /\
   predict Config.default (Some []) (tracking (Some failing_classifier))
   = (Ok (None, 0), tracking (Some failing_classifier))) /\
  (model (tracking (Some confident_classifier)) = Some confident_classifier /\
   classify one_class_config confident_classifier [] = Ok (Some (1%nat, 8 # 10)) /\
   class_name one_class_config 1 = Raise IndexError /\
   predict one_class_config (Some []) (tracking (Some confident_classifier))
   = (Ok (None, 0), tracking (Some confident_classifier))) /\
  (predict Config.default None (tracking None) = (Ok (None, 0), tracking None) /\
   get_current_prediction (snd (predict Config.default None (tracking None)))
   = (Ok ("A"%string, 84 # 100), tracking None)).
Proof.
  split; [|split; [|split]].
  - split; [reflexivity|].
    apply (proj1 (proj2 (proj2 (predict_total Config.default (Some []) (tracking None))))).
    reflexivity.
  - split; [reflexivity|]. split; [reflexivity|].
    destruct (predict_total Config.default (Some [])
                (tracking (Some failing_classifier))) as (_ & _ & _ & H & _).
    exact (H failing_classifier [] ModelError eq_refl eq_refl eq_refl).
  - split; [reflexivity|]. split; [reflexivity|]. split; [reflexivity|].
    destruct (predict_total one_class_config (Some [])
                (tracking (Some confident_classifier))) as (_ & _ & _ & _ & H & _).
    exact (H confident_classifier [] 1%nat (8 # 10) IndexError
             eq_refl eq_refl eq_refl eq_refl).
  - split; [reflexivity|].
    destruct (predict_total Config.default None (tracking None))
      as (_ & _ & _ & _ & _ & H).
    exact (H eq_refl).
Defined.



(** * Further properties *)

(** ** The normaliser on arbitrary arrays *)

Section PreprocessAnyArray.

Import SignDetector Utils NormalizeSpec.

Lemma flatten_length (rs : list row) : length (flatten rs) = (3 * length rs)%nat.
Proof.
  induction rs as [|[[x y] z] rs IH]; [reflexivity|].
  change (flatten ((x, y, z) :: rs)) with (x :: y :: z :: flatten rs).
  cbn [length]. rewrite IH. lia.
Qed.



Lemma rows3_flatten (rs : list row) : rows3 (flatten rs) = rs.
Proof.
  induction rs as [|[[x y] z] rs IH]; [reflexivity|].
  change (flatten ((x, y, z) :: rs)) with (x :: y :: z :: flatten rs).
  cbn [rows3]. now rewrite IH.
Qed.

Lemma preprocess_landmarks_rows (l : list float) :
  length l = 63%nat ->
  exists w x_lo x_r y_lo y_r,
    hd_error (rows3 l) = Some w /\
    preprocess_landmarks (Some l) =
    Ok (Some (flatten
                (map (fun r => (rescale x_lo x_r (sub (col0 r) (col0 w)),
                                rescale y_lo y_r (sub (col1 r) (col1 w)),
                                sub (col2 r) (col2 w)))
                     (rows3 l)))).
Proof.
  intro Hlen. unfold preprocess_landmarks, reshape_21_3.
  rewrite Hlen. cbn [Nat.eqb bind].
  pose proof (rows3_length 21 l Hlen) as Hrows.
  destruct (rows3 l) as [|w rs] eqn:Erows; [discriminate|].
  exists w. cbv beta iota.
  set (nl := map (fun r => row_sub r w) (w :: rs)).
  assert (Hx : exists a, np_min (map col0 nl) = Ok a) by (eexists; reflexivity).
  assert (Hx' : exists a, np_max (map col0 nl) = Ok a) by (eexists; reflexivity).
  assert (Hy : exists a, np_min (map col1 nl) = Ok a) by (eexists; reflexivity).
  assert (Hy' : exists a, np_max (map col1 nl) = Ok a) by (eexists; reflexivity).
  destruct Hx as [x_lo ->], Hx' as [x_hi ->], Hy as [y_lo ->], Hy' as [y_hi ->].
  cbn [bind].
  exists x_lo, (py_max (sub x_hi x_lo) (Fin 1)), y_lo, (py_max (sub y_hi y_lo) (Fin 1)).
  split; [reflexivity|]. do 3 f_equal.
  unfold nl. rewrite !map_map. apply map_ext.
  intros [[x y] z]. destruct w as [[wx wy] wz]. reflexivity.
Qed.



End PreprocessAnyArray.

Section PreprocessValidity.

Import SignDetector Utils NormalizeSpec.



End PreprocessValidity.

Import SignDetector Utils NormalizeSpec.

(** X1.  [preprocess_landmarks] raises ValueError on every array that does
    not have exactly 63 elements, and on every array of 63 elements, whatever
    they are, it returns a vector of 63 elements. *)
Theorem preprocess_landmarks_shape (l : list float) :
  (length l <> 63%nat -> preprocess_landmarks (Some l) = Raise ValueError) /\
  (length l = 63%nat ->
   exists v, preprocess_landmarks (Some l) = Ok (Some v) /\ length v = 63%nat).
Proof.
  split.
  - intro H. unfold preprocess_landmarks, reshape_21_3.
    now rewrite (proj2 (Nat.eqb_neq _ _) H).
  - intro H.
    destruct (preprocess_landmarks_rows l H) as (w & xl & xr & yl & yr & _ & ->).
    eexists. split; [reflexivity|].
    rewrite flatten_length, length_map, (rows3_length 21 l H). reflexivity.
Qed.


(** ** Extremes of lists of rationals *)

Section Extremes.

Import NormalizeSpec.

Lemma fold_Qmin_Qeq (xs ys : list Q) (x y : Q) :
  Forall2 Qeq xs ys -> x == y -> fold_left Qmin xs x == fold_left Qmin ys y.
Proof.
  intro H. revert x y. induction H as [|a b xs ys Hab _ IH]; intros x y Hxy.
  - exact Hxy.
  - cbn [fold_left]. apply IH. now rewrite Hab, Hxy.
Qed.

Lemma fold_Qmax_Qeq (xs ys : list Q) (x y : Q) :
  Forall2 Qeq xs ys -> x == y -> fold_left Qmax xs x == fold_left Qmax ys y.
Proof.
  intro H. revert x y. induction H as [|a b xs ys Hab _ IH]; intros x y Hxy.
  - exact Hxy.
  - cbn [fold_left]. apply IH. now rewrite Hab, Hxy.
Qed.


Lemma Forall2_map_ext {A : Type} (f g : A -> Q) (l : list A) :
  (forall a, In a l -> f a == g a) -> Forall2 Qeq (map f l) (map g l).
Proof.
  induction l as [|a l IH]; intro H; cbn [map]; constructor.
  - apply H. now left.
  - apply IH. intros b Hb. apply H. now right.
Qed.

Lemma lowest_Qeq (l l' : list Q) : Forall2 Qeq l l' -> lowest l == lowest l'.
Proof.
  intros [|a b xs ys Hab H]; [reflexivity|]. now apply fold_Qmin_Qeq.
Qed.

Lemma highest_Qeq (l l' : list Q) : Forall2 Qeq l l' -> highest l == highest l'.
Proof.
  intros [|a b xs ys Hab H]; [reflexivity|]. now apply fold_Qmax_Qeq.
Qed.

Variable g : Q -> Q.
Hypothesis g_compat : forall a b, a == b -> g a == g b.
Hypothesis g_mono : forall a b, a <= b -> g a <= g b.





End Extremes.

(** ** Invariance of the normalisation *)

Section NormalizeInvariance.

Import SignDetector NormalizeSpec MoreSpec.

Lemma extract_landmarks_float_eq (q q' : Pose) :
  Forall2 keypoint_eq q q' ->
  Forall2 float_eq (_extract_landmarks q) (_extract_landmarks q').
Proof.
  induction 1 as [|a b q q' (Hx & Hy & Hz) _ IH]; [constructor|].
  rewrite !extract_landmarks_cons. repeat constructor; assumption.
Qed.

Lemma Forall2_map_same {A B : Type} (R : B -> B -> Prop) (f g : A -> B)
      (l : list A) :
  (forall a, In a l -> R (f a) (g a)) -> Forall2 R (map f l) (map g l).
Proof.
  induction l as [|a l IH]; intro H; cbn [map]; constructor.
  - apply H. now left.
  - apply IH. intros b Hb. apply H. now right.
Qed.

Lemma rescaled_Qeq (lo lo' r r' v v' : Q) :
  lo == lo' -> r == r' -> v == v' -> rescaled lo r v == rescaled lo' r' v'.
Proof. intros H1 H2 H3. unfold rescaled. now rewrite H1, H2, H3. Qed.

Lemma Qmax_Qeq (a a' b : Q) : a == a' -> Qmax a b == Qmax a' b.
Proof. intro H. now rewrite H. Qed.

Lemma Forall2_map_rel {A B : Type} (R : A -> A -> Prop) (S : B -> B -> Prop)
      (f f' : A -> B) (l l' : list A) :
  (forall a b, R a b -> S (f a) (f' b)) ->
  Forall2 R l l' -> Forall2 S (map f l) (map f' l').
Proof.
  intros Hf H. induction H as [|a b l l' Hab _ IH]; cbn [map]; constructor; auto.
Qed.

(** Two poses whose translated keypoints agree have the same normal form. *)
Lemma normalize_float_eq (p p' : Pose) :
  Forall2 keypoint_eq (translated p) (translated p') ->
  Forall2 float_eq (normalize p) (normalize p').
Proof.
  intro H. unfold normalize. apply extract_landmarks_float_eq.
  assert (Hx : Forall2 Qeq (map kx (translated p)) (map kx (translated p'))).
  { revert H. apply Forall2_map_rel. now intros a b (Ha & _). }
  assert (Hy : Forall2 Qeq (map ky (translated p)) (map ky (translated p'))).
  { revert H. apply Forall2_map_rel. now intros a b (_ & Ha & _). }
  assert (Exl : x_min p == x_min p') by now apply lowest_Qeq.
  assert (Exh : x_max p == x_max p') by now apply highest_Qeq.
  assert (Eyl : y_min p == y_min p') by now apply lowest_Qeq.
  assert (Eyh : y_max p == y_max p') by now apply highest_Qeq.
  assert (Exr : x_range p == x_range p').
  { unfold x_range. apply Qmax_Qeq. now rewrite Exl, Exh. }
  assert (Eyr : y_range p == y_range p').
  { unfold y_range. apply Qmax_Qeq. now rewrite Eyl, Eyh. }
  revert H. apply Forall2_map_rel. intros a b (Ha & Hb & Hc).
  unfold keypoint_eq, normalize_keypoint. cbn [kx ky kz].
  repeat split; [now apply rescaled_Qeq | now apply rescaled_Qeq | exact Hc].
Qed.

Lemma translated_move (d : Keypoint) (p : Pose) :
  Forall2 keypoint_eq (translated (move d p)) (translated p).
Proof.
  destruct p as [|w p']; [constructor|].
  unfold translated, move. cbn [map wrist hd]. rewrite !map_map.
  constructor.
  - unfold keypoint_eq, translate, move_keypoint. cbn [kx ky kz].
    repeat split; ring.
  - apply Forall2_map_same. intros k _.
    unfold keypoint_eq, translate, move_keypoint. cbn [kx ky kz].
    repeat split; ring.
Qed.

Lemma move_length (d : Keypoint) (p : Pose) : length (move d p) = length p.
Proof. apply length_map. Qed.

End NormalizeInvariance.

Import MoreSpec.

(** X3.  Moving a pose of 21 keypoints by any vector does not change what
    [preprocess_landmarks] returns: the two vectors have the same components. *)
Theorem preprocess_landmarks_translation_invariant (d : Keypoint) (p : Pose) :
  length p = 21%nat ->
  exists v v',
    preprocess_landmarks (Some (_extract_landmarks p)) = Ok (Some v) /\
    preprocess_landmarks (Some (_extract_landmarks (move d p))) = Ok (Some v') /\
    Forall2 float_eq v' v.
Proof.
  intro Hlen. exists (normalize p), (normalize (move d p)).
  split; [now apply preprocess_landmarks_refines|].
  split; [apply preprocess_landmarks_refines; now rewrite move_length|].
  apply normalize_float_eq, translated_move.
Qed.


Section NormalizeIdempotent.

Import SignDetector NormalizeSpec MoreSpec.









End NormalizeIdempotent.


(** ** The area of the hand *)

Section HandArea.

Import SignDetector NormalizeSpec MoreSpec UtilsMore.






End HandArea.

Import UtilsMore.

(** X6.  [calculate_hand_area] returns 0 for an absent array and for an
    array of fewer than 63 elements, raises ValueError for an array of more
    than 63 elements, and returns a value for an array of exactly 63. *)
Theorem calculate_hand_area_shape (l : list float) :
  calculate_hand_area None = Ok (Fin 0) /\
  ((length l < 63)%nat -> calculate_hand_area (Some l) = Ok (Fin 0)) /\
  ((63 < length l)%nat -> calculate_hand_area (Some l) = Raise ValueError) /\
  (length l = 63%nat -> exists a, calculate_hand_area (Some l) = Ok a).
Proof.
  split; [reflexivity|]. unfold calculate_hand_area, reshape_21_3.
  split; [|split].
  - intro H. now rewrite (proj2 (Nat.ltb_lt _ _) H).
  - intro H. rewrite (proj2 (Nat.ltb_ge _ _)) by lia.
    rewrite (proj2 (Nat.eqb_neq _ _)) by lia. reflexivity.
  - intro H. rewrite H. cbn [Nat.ltb Nat.leb Nat.eqb bind].
    pose proof (rows3_length 21 l H) as Hrows.
    destruct (rows3 l) as [|w rs]; [discriminate|].
    cbn [map np_max np_min bind]. eexists. reflexivity.
Qed.


(** ** Smoothing a sequence of landmark arrays *)

Section SmoothLandmarks.

Import Numpy UtilsMore.

Lemma slice_from_whole {A : Type} (w : Z) (l : list A) :
  w = 0%Z \/ (Z.of_nat (length l) <= w)%Z -> slice_from (- w) l = l.
Proof.
  intro H. unfold slice_from, slice_index.
  replace (Z.to_nat _) with 0%nat; [reflexivity|].
  destruct (Z.ltb_spec (- w) 0); lia.
Qed.

Lemma slice_from_last {A : Type} (w : Z) (older recent : list A) :
  (0 < w)%Z -> length recent = Z.to_nat w ->
  slice_from (- w) (older ++ recent) = recent.
Proof.
  intros Hw Hlen. unfold slice_from, slice_index.
  rewrite length_app.
  replace (Z.to_nat _) with (length older).
  - rewrite skipn_app, skipn_all, Nat.sub_diag. reflexivity.
  - destruct (Z.ltb_spec (- w) 0); lia.
Qed.











End SmoothLandmarks.

Import Numpy.

(** X8.  [smooth_landmarks] with a window size of 0, or of at least the
    length of the sequence, averages the whole sequence: it returns what it
    returns for a window size equal to that length. *)
Theorem smooth_landmarks_whole_sequence (seq : list (list float)) (w : Z) :
  w = 0%Z \/ (Z.of_nat (length seq) <= w)%Z ->
  smooth_landmarks seq w = smooth_landmarks seq (Z.of_nat (length seq)).
Proof.
  intro H. unfold smooth_landmarks. destruct seq as [|a seq']; [reflexivity|].
  rewrite (slice_from_whole w (a :: seq') H).
  rewrite (slice_from_whole _ (a :: seq')); [reflexivity|]. right. lia.
Qed.

(** X9.  With a positive window size [smooth_landmarks] looks at the last
    arrays only: whatever precedes the last [window_size] arrays of the
    sequence has no effect on the result. *)
Theorem smooth_landmarks_last_only (older recent : list (list float)) (w : Z) :
  (0 < w)%Z -> length recent = Z.to_nat w ->
  smooth_landmarks (older ++ recent) w = smooth_landmarks recent w.
Proof.
  intros Hw Hlen. unfold smooth_landmarks.
  assert (Hne : recent <> []).
  { intro E. rewrite E in Hlen. cbn in Hlen. lia. }
  rewrite (slice_from_last w older recent Hw Hlen).
  rewrite (slice_from_whole w recent) by (right; lia).
  destruct recent as [|a r]; [congruence|].
  destruct (older ++ a :: r) eqn:E; [|reflexivity].
  destruct older; discriminate.
Qed.


(** ** The region of the hand *)

Section HandRegionFacts.

Import SignDetector Numpy HandRegion.

Lemma fold_Zmin_spec (xs : list Z) (x : Z) :
  In (fold_left Z.min xs x) (x :: xs) /\
  forall y, In y (x :: xs) -> (fold_left Z.min xs x <= y)%Z.
Proof.
  revert x. induction xs as [|a xs IH]; intro x; cbn [fold_left].
  - split; [now left|]. intros y [<- | []]. lia.
  - destruct (IH (Z.min x a)) as [Hin Hle]. split.
    + destruct Hin as [E | Hin]; [|now right; right].
      rewrite <- E. destruct (Z.min_spec x a) as [[_ ->] | [_ ->]]; cbn; auto.
    + intros y Hy.
      assert (H0 : (fold_left Z.min xs (Z.min x a) <= Z.min x a)%Z)
        by (apply Hle; now left).
      destruct Hy as [<- | [<- | Hy]]; [lia | lia |].
      apply Hle. now right.
Qed.

Lemma fold_Zmax_spec (xs : list Z) (x : Z) :
  In (fold_left Z.max xs x) (x :: xs) /\
  forall y, In y (x :: xs) -> (y <= fold_left Z.max xs x)%Z.
Proof.
  revert x. induction xs as [|a xs IH]; intro x; cbn [fold_left].
  - split; [now left|]. intros y [<- | []]. lia.
  - destruct (IH (Z.max x a)) as [Hin Hle]. split.
    + destruct Hin as [E | Hin]; [|now right; right].
      rewrite <- E. destruct (Z.max_spec x a) as [[_ ->] | [_ ->]]; cbn; auto.
    + intros y Hy.
      assert (H0 : (Z.max x a <= fold_left Z.max xs (Z.max x a))%Z)
        by (apply Hle; now left).
      destruct Hy as [<- | [<- | Hy]]; [lia | lia |].
      apply Hle. now right.
Qed.

Lemma int_min_spec (l : list Z) :
  l <> [] ->
  exists m, int_min l = Ok m /\ In m l /\ forall y, In y l -> (m <= y)%Z.
Proof.
  destruct l as [|x xs]; [congruence|]. intros _.
  destruct (fold_Zmin_spec xs x) as [H1 H2]. eexists. split; [reflexivity|]. now split.
Qed.

Lemma int_max_spec (l : list Z) :
  l <> [] ->
  exists m, int_max l = Ok m /\ In m l /\ forall y, In y l -> (y <= m)%Z.
Proof.
  destruct l as [|x xs]; [congruence|]. intros _.
  destruct (fold_Zmax_spec xs x) as [H1 H2]. eexists. split; [reflexivity|]. now split.
Qed.

Lemma slice_index_range (i len : Z) :
  (0 <= len)%Z -> (0 <= slice_index i len <= len)%Z.
Proof. intro H. unfold slice_index. destruct (Z.ltb_spec i 0); lia. Qed.

Lemma slice_index_inside (i len : Z) :
  (0 <= i <= len)%Z -> slice_index i len = i.
Proof. intro H. unfold slice_index. destruct (Z.ltb_spec i 0); lia. Qed.

Lemma slice_index_negative (i len : Z) :
  (i < 0)%Z -> (0 <= i + len)%Z -> slice_index i len = (i + len)%Z.
Proof. intros H1 H2. unfold slice_index. destruct (Z.ltb_spec i 0); lia. Qed.

Lemma slice_index_beyond (i len : Z) :
  (0 <= len <= i)%Z -> slice_index i len = len.
Proof. intro H. unfold slice_index. destruct (Z.ltb_spec i 0); lia. Qed.

Variable cast_nonfinite : Z.

(** The shape of the result on an array of 63 elements. *)
Lemma get_hand_region_rows (frame : frame_shape) (l : list float) :
  length l = 63%nat ->
  exists x_lo x_hi y_lo y_hi,
    let xs := map (fun r => astype_int cast_nonfinite (col0 r)) (rows3 l) in
    let ys := map (fun r => astype_int cast_nonfinite (col1 r)) (rows3 l) in
    (In x_lo xs /\ forall x, In x xs -> (x_lo <= x)%Z) /\
    (In x_hi xs /\ forall x, In x xs -> (x <= x_hi)%Z) /\
    (In y_lo ys /\ forall y, In y ys -> (y_lo <= y)%Z) /\
    (In y_hi ys /\ forall y, In y ys -> (y <= y_hi)%Z) /\
    get_hand_region cast_nonfinite frame (Some l) =
    let r := {| top := slice_index (Z.max 0 (y_lo - 20)) (Z.of_nat (height frame));
                bottom := slice_index (Z.min (Z.of_nat (height frame)) (y_hi + 20))
                                      (Z.of_nat (height frame));
                left := slice_index (Z.max 0 (x_lo - 20)) (Z.of_nat (width frame));
                right := slice_index (Z.min (Z.of_nat (width frame)) (x_hi + 20))
                                     (Z.of_nat (width frame)) |} in
    if (0 <? region_size frame r)%Z then Ok (Some r) else Ok None.
Proof.
  intro Hlen. unfold get_hand_region, reshape_21_3.
  rewrite Hlen. cbn [Nat.eqb bind].
  pose proof (rows3_length 21 l Hlen) as Hrows.
  set (xs := map (fun r => astype_int cast_nonfinite (col0 r)) (rows3 l)).
  set (ys := map (fun r => astype_int cast_nonfinite (col1 r)) (rows3 l)).
  assert (Hxs : xs <> []) by (unfold xs; destruct (rows3 l); discriminate).
  assert (Hys : ys <> []) by (unfold ys; destruct (rows3 l); discriminate).
  destruct (int_min_spec xs Hxs) as (x_lo & -> & Hx1).
  destruct (int_max_spec xs Hxs) as (x_hi & -> & Hx2).
  destruct (int_min_spec ys Hys) as (y_lo & -> & Hy1).
  destruct (int_max_spec ys Hys) as (y_hi & -> & Hy2).
  exists x_lo, x_hi, y_lo, y_hi. cbn zeta. cbn [bind].
  repeat (split; [assumption|]). reflexivity.
Qed.

Lemma Qtruncate_nonneg (q : Q) : 0 <= q -> Qtruncate q = Qfloor q /\ (0 <= Qfloor q)%Z.
Proof.
  intro H. unfold Qtruncate. rewrite (proj2 (Qle_bool_iff 0 q) H).
  split; [reflexivity|]. change 0%Z with (Qfloor 0). now apply Qfloor_resp_le.
Qed.

Lemma Qtruncate_negative (q : Q) : q < 0 -> Qtruncate q = Qceiling q.
Proof.
  intro H. unfold Qtruncate. destruct (Qle_bool 0 q) eqn:E; [|reflexivity].
  apply Qle_bool_iff in E. lra.
Qed.

Lemma Qtruncate_below (q : Q) (n : Z) :
  0 <= q -> q < inject_Z n -> (0 <= Qtruncate q < n)%Z.
Proof.
  intros H0 Hn. destruct (Qtruncate_nonneg q H0) as [-> Hf]. split; [exact Hf|].
  rewrite Zlt_Qlt. apply Qle_lt_trans with q; [apply Qfloor_le | exact Hn].
Qed.

Lemma Qtruncate_at_least (q : Q) (n : Z) :
  (0 <= n)%Z -> inject_Z n <= q -> (n <= Qtruncate q)%Z.
Proof.
  intros H0 Hn.
  assert (Hq : 0 <= q).
  { apply Qle_trans with (inject_Z n); [|exact Hn].
    change 0 with (inject_Z 0). now rewrite <- Zle_Qle. }
  destruct (Qtruncate_nonneg q Hq) as [-> _].
  rewrite <- (Qfloor_Z n). now apply Qfloor_resp_le.
Qed.

Lemma Qtruncate_between_negative (q : Q) (a b : Z) :
  (b < 0)%Z -> inject_Z a < q -> q <= inject_Z b -> (a < Qtruncate q <= b)%Z.
Proof.
  intros Hb Ha Hqb.
  assert (Hq : q < 0).
  { apply Qle_lt_trans with (inject_Z b); [exact Hqb|].
    change 0 with (inject_Z 0). now rewrite <- Zlt_Qlt. }
  rewrite (Qtruncate_negative q Hq). split.
  - rewrite Zlt_Qlt. apply Qlt_le_trans with q; [exact Ha | apply Qle_ceiling].
  - rewrite <- (Qceiling_Z b). now apply Qceiling_resp_le.
Qed.

Lemma pose_columns (p : Pose) :
  map (fun r => astype_int cast_nonfinite (col0 r)) (rows3 (_extract_landmarks p))
  = map (fun k => Qtruncate (kx k)) p /\
  map (fun r => astype_int cast_nonfinite (col1 r)) (rows3 (_extract_landmarks p))
  = map (fun k => Qtruncate (ky k)) p.
Proof. rewrite rows3_extract_landmarks, !map_map. split; reflexivity. Qed.

End HandRegionFacts.

Import Numpy HandRegion.


(** X12.  When every keypoint of a pose of 21 keypoints lies inside the
    frame, [get_hand_region] returns a region; the region contains the pixel
    of every keypoint, and around each of them it leaves 20 pixels or reaches
    the edge of the frame. *)
Theorem get_hand_region_contains_hand (c : Z) (frame : frame_shape) (p : Pose) :
  length p = 21%nat ->
  (0 < channels frame)%nat ->
  (forall k, In k p ->
     0 <= kx k /\ kx k < inject_Z (Z.of_nat (width frame)) /\
     0 <= ky k /\ ky k < inject_Z (Z.of_nat (height frame))) ->
  exists r,
    get_hand_region c frame (Some (_extract_landmarks p)) = Ok (Some r) /\
    forall k, In k p ->
      (left r <= Qtruncate (kx k) < right r)%Z /\
      (top r <= Qtruncate (ky k) < bottom r)%Z /\
      (left r <= Z.max 0 (Qtruncate (kx k) - 20))%Z /\
      (Z.min (Z.of_nat (width frame)) (Qtruncate (kx k) + 20) <= right r)%Z /\
      (top r <= Z.max 0 (Qtruncate (ky k) - 20))%Z /\
      (Z.min (Z.of_nat (height frame)) (Qtruncate (ky k) + 20) <= bottom r)%Z.
Proof.
  intros Hlen Hch Hin.
  assert (H63 : length (_extract_landmarks p) = 63%nat)
    by (rewrite extract_landmarks_length, Hlen; reflexivity).
  destruct (get_hand_region_rows c frame _ H63)
    as (x_lo & x_hi & y_lo & y_hi & Hxl & Hxh & Hyl & Hyh & E).
  cbn zeta in *. destruct (pose_columns c p) as [Ex Ey].
  rewrite Ex in Hxl, Hxh. rewrite Ey in Hyl, Hyh.
  assert (Bx : forall x, In x (map (fun k => Qtruncate (kx k)) p) ->
                         (0 <= x < Z.of_nat (width frame))%Z).
  { intros x Hx. apply in_map_iff in Hx. destruct Hx as (k & <- & Hk).
    destruct (Hin k Hk) as (H1 & H2 & _). now apply Qtruncate_below. }
  assert (By : forall y, In y (map (fun k => Qtruncate (ky k)) p) ->
                         (0 <= y < Z.of_nat (height frame))%Z).
  { intros y Hy. apply in_map_iff in Hy. destruct Hy as (k & <- & Hk).
    destruct (Hin k Hk) as (_ & _ & H1 & H2). now apply Qtruncate_below. }
  destruct Hxl as [Hxl1 Hxl2], Hxh as [Hxh1 Hxh2].
  destruct Hyl as [Hyl1 Hyl2], Hyh as [Hyh1 Hyh2].
  pose proof (Bx _ Hxl1) as Bxl. pose proof (Bx _ Hxh1) as Bxh.
  pose proof (By _ Hyl1) as Byl. pose proof (By _ Hyh1) as Byh.
  rewrite !slice_index_inside in E by lia.
  match type of E with
  | _ = (if (0 <? region_size frame ?reg)%Z then _ else _) => set (g := reg) in *
  end.
  assert (Hle : (x_lo <= x_hi)%Z) by now apply Hxl2.
  assert (Hle' : (y_lo <= y_hi)%Z) by now apply Hyl2.
  assert (Hpos : (0 < region_size frame g)%Z).
  { unfold region_size. cbn [g top bottom left right].
    apply Z.mul_pos_pos; [apply Z.mul_pos_pos|]; lia. }
  rewrite (proj2 (Z.ltb_lt _ _) Hpos) in E.
  exists g. split; [exact E|].
  intros k Hk.
  assert (Hkx : In (Qtruncate (kx k)) (map (fun k => Qtruncate (kx k)) p))
    by (apply in_map_iff; now exists k).
  assert (Hky : In (Qtruncate (ky k)) (map (fun k => Qtruncate (ky k)) p))
    by (apply in_map_iff; now exists k).
  pose proof (Hxl2 _ Hkx). pose proof (Hxh2 _ Hkx).
  pose proof (Hyl2 _ Hky). pose proof (Hyh2 _ Hky).
  pose proof (Bx _ Hkx). pose proof (By _ Hky).
  cbn [g top bottom left right]. lia.
Qed.

(** X13.  When every keypoint of a pose of 21 keypoints lies 20 pixels or
    more beyond the right edge of the frame, or 20 pixels or more below its
    bottom edge, [get_hand_region] returns nothing. *)
Theorem get_hand_region_beyond_frame (c : Z) (frame : frame_shape) (p : Pose) :
  length p = 21%nat ->
  (forall k, In k p -> inject_Z (Z.of_nat (width frame) + 20) <= kx k) \/
  (forall k, In k p -> inject_Z (Z.of_nat (height frame) + 20) <= ky k) ->
  get_hand_region c frame (Some (_extract_landmarks p)) = Ok None.
Proof.
  intros Hlen Hout.
  assert (H63 : length (_extract_landmarks p) = 63%nat)
    by (rewrite extract_landmarks_length, Hlen; reflexivity).
  destruct (get_hand_region_rows c frame _ H63)
    as (x_lo & x_hi & y_lo & y_hi & Hxl & Hxh & Hyl & Hyh & E).
  cbn zeta in *. destruct (pose_columns c p) as [Ex Ey].
  rewrite Ex in Hxl, Hxh. rewrite Ey in Hyl, Hyh.
  rewrite E. clear E.
  match goal with
  | |- (if (0 <? region_size frame ?reg)%Z then _ else _) = _ => set (g := reg)
  end.
  replace (0 <? region_size frame g)%Z with false; [reflexivity|].
  symmetry. apply Z.ltb_ge. unfold region_size.
  pose proof (Nat2Z.is_nonneg (width frame)) as HW.
  pose proof (Nat2Z.is_nonneg (height frame)) as HH.
  pose proof (Nat2Z.is_nonneg (channels frame)) as HC.
  destruct Hout as [Hx | Hy].
  - assert (Hlo : (Z.of_nat (width frame) + 20 <= x_lo)%Z).
    { destruct Hxl as [Hm _]. apply in_map_iff in Hm. destruct Hm as (k & <- & Hk).
      apply Qtruncate_at_least; [lia | now apply Hx]. }
    assert (Hz : Z.max 0 (right g - left g) = 0%Z).
    { cbn [g left right]. rewrite (slice_index_beyond (Z.max 0 (x_lo - 20))) by lia.
      pose proof (slice_index_range (Z.min (Z.of_nat (width frame)) (x_hi + 20))
                    (Z.of_nat (width frame)) HW). lia. }
    rewrite Hz. lia.
  - assert (Hlo : (Z.of_nat (height frame) + 20 <= y_lo)%Z).
    { destruct Hyl as [Hm _]. apply in_map_iff in Hm. destruct Hm as (k & <- & Hk).
      apply Qtruncate_at_least; [lia | now apply Hy]. }
    assert (Hz : Z.max 0 (bottom g - top g) = 0%Z).
    { cbn [g top bottom]. rewrite (slice_index_beyond (Z.max 0 (y_lo - 20))) by lia.
      pose proof (slice_index_range (Z.min (Z.of_nat (height frame)) (y_hi + 20))
                    (Z.of_nat (height frame)) HH). lia. }
    rewrite Hz. lia.
Qed.

(** X14.  When every keypoint of a pose of 21 keypoints lies more than 20
    pixels to the left of the frame, though less than the width of the frame
    plus 20, and within its height, [get_hand_region] still returns a
    region: the negative right bound of the slice counts from the right edge,
    so the region starts at the left edge of the frame and contains none of
    the keypoints. *)
Theorem get_hand_region_left_of_frame (c : Z) (frame : frame_shape) (p : Pose) :
  length p = 21%nat ->
  (0 < channels frame)%nat ->
  (forall k, In k p ->
     inject_Z (- Z.of_nat (width frame) - 20) < kx k /\ kx k <= inject_Z (-21) /\
     0 <= ky k /\ ky k < inject_Z (Z.of_nat (height frame))) ->
  exists r,
    get_hand_region c frame (Some (_extract_landmarks p)) = Ok (Some r) /\
    left r = 0%Z /\
    (0 < right r < Z.of_nat (width frame))%Z /\
    forall k, In k p -> (Qtruncate (kx k) < left r)%Z.
Proof.
  intros Hlen Hch Hin.
  assert (H63 : length (_extract_landmarks p) = 63%nat)
    by (rewrite extract_landmarks_length, Hlen; reflexivity).
  destruct (get_hand_region_rows c frame _ H63)
    as (x_lo & x_hi & y_lo & y_hi & Hxl & Hxh & Hyl & Hyh & E).
  cbn zeta in *. destruct (pose_columns c p) as [Ex Ey].
  rewrite Ex in Hxl, Hxh. rewrite Ey in Hyl, Hyh.
  assert (Bx : forall x, In x (map (fun k => Qtruncate (kx k)) p) ->
                         (- Z.of_nat (width frame) - 20 < x <= -21)%Z).
  { intros x Hx. apply in_map_iff in Hx. destruct Hx as (k & <- & Hk).
    destruct (Hin k Hk) as (H1 & H2 & _).
    apply Qtruncate_between_negative; [lia | exact H1 | exact H2]. }
  assert (By : forall y, In y (map (fun k => Qtruncate (ky k)) p) ->
                         (0 <= y < Z.of_nat (height frame))%Z).
  { intros y Hy. apply in_map_iff in Hy. destruct Hy as (k & <- & Hk).
    destruct (Hin k Hk) as (_ & _ & H1 & H2). now apply Qtruncate_below. }
  destruct Hxl as [Hxl1 Hxl2], Hxh as [Hxh1 Hxh2].
  destruct Hyl as [Hyl1 Hyl2], Hyh as [Hyh1 Hyh2].
  pose proof (Bx _ Hxl1) as Bxl. pose proof (Bx _ Hxh1) as Bxh.
  pose proof (By _ Hyl1) as Byl. pose proof (By _ Hyh1) as Byh.
  assert (Hle' : (y_lo <= y_hi)%Z) by now apply Hyl2.
  rewrite (slice_index_inside (Z.max 0 (y_lo - 20))) in E by lia.
  rewrite (slice_index_inside (Z.min (Z.of_nat (height frame)) (y_hi + 20))) in E by lia.
  rewrite (slice_index_inside (Z.max 0 (x_lo - 20))) in E by lia.
  rewrite (slice_index_negative (Z.min (Z.of_nat (width frame)) (x_hi + 20))) in E by lia.
  match type of E with
  | _ = (if (0 <? region_size frame ?reg)%Z then _ else _) => set (g := reg) in *
  end.
  assert (Hpos : (0 < region_size frame g)%Z).
  { unfold region_size. cbn [g top bottom left right].
    apply Z.mul_pos_pos; [apply Z.mul_pos_pos|]; lia. }
  rewrite (proj2 (Z.ltb_lt _ _) Hpos) in E.
  exists g. split; [exact E|]. cbn [g left right].
  split; [lia|]. split; [lia|].
  intros k Hk.
  assert (Hkx : In (Qtruncate (kx k)) (map (fun k => Qtruncate (kx k)) p))
    by (apply in_map_iff; now exists k).
  pose proof (Bx _ Hkx). lia.
Qed.

(** ** More on the smoothing *)

Section SmoothingFacts.

Import SignTranslator StabilizerSpec MoreSpec.

Lemma occurrences_two (l l' : string) (ls : list string) :
  l <> l' -> (occurrences l ls + occurrences l' ls <= length ls)%nat.
Proof.
  intro Hne. unfold occurrences.
  induction ls as [|x ls IH]; [cbn; lia|].
  cbn [count_occ length].
  destruct (string_dec x l) as [E1 | N1], (string_dec x l') as [E2 | N2];
    try lia. congruence.
Qed.








End SmoothingFacts.

Import SignTranslator StabilizerSpec.

(** X15.  A label carried by more than half of the entries of the window is
    the label [_smooth_predictions] returns. *)
Theorem smooth_predictions_strict_majority (h : list (string * Q)) (l : string) :
  (length h < 2 * occurrences l (labels h))%nat ->
  exists c, _smooth_predictions h = Ok (l, c).
Proof.
  intro Hmaj.
  assert (Hne : h <> []).
  { intro E. rewrite E in Hmaj. cbn in Hmaj. lia. }
  destruct (smooth_predictions_nonempty h Hne) as (lbl & c & Hr & _ & _ & Hmax & _).
  exists c. rewrite Hr. do 2 f_equal.
  destruct (string_dec lbl l) as [E | Hdiff]; [exact E|]. exfalso.
  pose proof (occurrences_two lbl l (labels h) Hdiff) as H2.
  specialize (Hmax l). unfold labels in *. rewrite length_map in H2. lia.
Qed.


(** ** What the translator shows *)

Section TranslatorInvariant.

Import SignTranslator StabilizerSpec MoreSpec.

Variable cfg : Config.t.








End TranslatorInvariant.

Import MoreSpec.


Section WindowFacts.

Import SignTranslator StabilizerSpec MoreSpec.

Lemma lastn_short {A : Type} (n : nat) (l : list A) :
  (length l <= n)%nat -> lastn n l = l.
Proof.
  intro H. unfold lastn. replace (length l - n)%nat with 0%nat by lia. reflexivity.
Qed.

Lemma lastn_length {A : Type} (n : nat) (l : list A) :
  length (lastn n l) = Nat.min n (length l).
Proof. unfold lastn. rewrite length_skipn. lia. Qed.

Lemma lastn_app_lastn {A : Type} (n : nat) (a b : list A) :
  lastn n (lastn n a ++ b) = lastn n (a ++ b).
Proof.
  destruct (Nat.le_gt_cases (length a) n) as [H | H].
  - now rewrite (lastn_short n a H).
  - assert (E1 : lastn n (lastn n a ++ b) = skipn (length b) (lastn n a ++ b)).
    { unfold lastn at 1. f_equal. rewrite length_app, lastn_length. lia. }
    assert (E2 : lastn n (a ++ b) = skipn (length b + (length a - n)) (a ++ b)).
    { unfold lastn. f_equal. rewrite length_app. lia. }
    rewrite E1, E2, <- skipn_skipn, (skipn_app (length a - n) a b).
    replace (length a - n - length a)%nat with 0%nat by lia.
    reflexivity.
Qed.

Lemma append_lastn {A : Type} (x : A) (d : Deque.deque A) :
  (length (Deque.items d) <= Deque.maxlen d)%nat ->
  Deque.items (Deque.append x d) = lastn (Deque.maxlen d) (Deque.items d ++ [x]).
Proof.
  intro H. rewrite append_items. unfold lastn. rewrite length_app. cbn [length].
  destruct (Nat.ltb_spec (Deque.maxlen d) (length (Deque.items d) + 1)) as [L | L].
  - replace (length (Deque.items d) + 1 - Deque.maxlen d)%nat with 1%nat by lia.
    reflexivity.
  - replace (length (Deque.items d) + 1 - Deque.maxlen d)%nat with 0%nat by lia.
    reflexivity.
Qed.

Lemma accept_all_snoc (l : list (string * Q)) (e : string * Q) (s : state) :
  accept_all (l ++ [e]) s = accept (fst e) (snd e) (snd (accept_all l s)).
Proof. unfold accept_all. now rewrite fold_left_app. Qed.

Lemma accept_window (sign : string) (conf : Q) (s : state) :
  (length (window s) <= capacity s)%nat ->
  capacity (snd (accept sign conf s)) = capacity s /\
  window (snd (accept sign conf s)) = lastn (capacity s) (window s ++ [(sign, conf)]) /\
  fst (accept sign conf s) = _smooth_predictions (window (snd (accept sign conf s))).
Proof.
  intro H. destruct (accept_returns sign conf s) as (r & Hr & ->).
  unfold window, capacity in *. cbn [fst snd prediction_history].
  split; [reflexivity|]. split; [now apply append_lastn | now rewrite Hr].
Qed.

Lemma accept_all_window (l : list (string * Q)) (s : state) :
  (length (window s) <= capacity s)%nat ->
  capacity (snd (accept_all l s)) = capacity s /\
  window (snd (accept_all l s)) = lastn (capacity s) (window s ++ l) /\
  (l <> [] ->
   fst (accept_all l s) = _smooth_predictions (window (snd (accept_all l s)))).
Proof.
  intro H. induction l as [|e l IH] using rev_ind.
  - cbn [accept_all fold_left snd]. rewrite app_nil_r, lastn_short by exact H.
    split; [reflexivity|]. split; [reflexivity | congruence].
  - destruct IH as (Hc & Hw & _). rewrite accept_all_snoc.
    assert (Hl : (length (window (snd (accept_all l s)))
                  <= capacity (snd (accept_all l s)))%nat).
    { rewrite Hw, Hc, lastn_length. lia. }
    destruct (accept_window (fst e) (snd e) _ Hl) as (Hc' & Hw' & Hr').
    split; [now rewrite Hc', Hc|]. split.
    + rewrite Hw', Hc, Hw, <- surjective_pairing, lastn_app_lastn.
      now rewrite app_assoc.
    + intros _. exact Hr'.
Qed.

Lemma lastn_app_long {A : Type} (n : nat) (a b : list A) :
  (n <= length b)%nat -> lastn n (a ++ b) = lastn n b.
Proof.
  intro H. unfold lastn. rewrite length_app.
  replace (length a + length b - n)%nat with ((length b - n) + length a)%nat by lia.
  rewrite <- skipn_skipn, (skipn_app (length a) a b), skipn_all, Nat.sub_diag.
  reflexivity.
Qed.

End WindowFacts.

(** X18.  The history is a sliding window: after accepting a list of
    predictions the window holds the last entries of the old window followed
    by the list, as many as the capacity allows.  Once at least as many
    predictions as the capacity have been accepted, the window and the result
    of the last accept depend on those predictions only, not on the translator
    they were given to. *)
Theorem accept_all_sliding_window (l : list (string * Q)) (s s' : state) :
  (length (window s) <= capacity s)%nat ->
  (length (window s') <= capacity s')%nat ->
  capacity s' = capacity s ->
  window (snd (accept_all l s)) = lastn (capacity s) (window s ++ l) /\
  ((0 < capacity s <= length l)%nat ->
   window (snd (accept_all l s)) = lastn (capacity s) l /\
   fst (accept_all l s) = fst (accept_all l s')).
Proof.
  intros H H' Hcap.
  destruct (accept_all_window l s H) as (_ & Hw & Hr).
  destruct (accept_all_window l s' H') as (_ & Hw' & Hr').
  split; [exact Hw|]. intros [Hpos Hlong].
  assert (Hne : l <> []) by (destruct l; [cbn in Hlong; lia | discriminate]).
  rewrite (lastn_app_long _ _ _ Hlong) in Hw.
  rewrite Hcap, (lastn_app_long _ _ _ Hlong) in Hw'.
  split; [exact Hw|].
  now rewrite (Hr Hne), (Hr' Hne), Hw, Hw'.
Qed.

(** X19.  The first prediction accepted after a reset is returned as it is:
    when the classifier's best class passes the threshold and has a name,
    [predict] on a translator that was just reset returns that name with the
    classifier's confidence, the window holds this one entry, and
    [get_current_prediction] returns the same pair. *)
Theorem predict_after_reset_unsmoothed (cfg : Config.t) (s : state)
        (m : classifier) (l : list float) (i : nat) (q : Q) (sign : string) :
  (0 < capacity s)%nat ->
  model s = Some m ->
  classify cfg m l = Ok (Some (i, q)) ->
  class_name cfg i = Ok sign ->
  exists c s',
    predict cfg (Some l) (snd (reset s)) = (Ok (Some sign, c), s') /\
    c == q /\
    window s' = [(sign, q)] /\
    get_current_prediction s' = (Ok (sign, c), s').
Proof.
  intros Hcap Hm Hc Hn.
  assert (Hm' : model (snd (reset s)) = Some m) by exact Hm.
  rewrite (predict_classify cfg m l _ Hm'), Hc, Hn.
  destruct (accept_returns sign q (snd (reset s))) as (r & Hr & ->).
  assert (Hitems : Deque.items (Deque.append (sign, q)
                     (prediction_history (snd (reset s)))) = [(sign, q)]).
  { rewrite append_items. cbn [reset bindM get_self put_self snd prediction_history
                                 Deque.clear Deque.items Deque.maxlen app length].
    unfold capacity in Hcap.
    destruct (Nat.ltb_spec (Deque.maxlen (prediction_history s)) 1);
      [lia | reflexivity]. }
  rewrite Hitems in Hr.
  assert (Er : r = (sign, (0 + q) / inject_Z (Z.of_nat 1))).
  { unfold _smooth_predictions in Hr.
    cbn [fold_left tally_step Dict.contains Dict.get Dict.set Dict.keys map fst
         py_max_key bind length py_div] in Hr.
    now injection Hr as <-. }
  subst r. cbn [fst snd].
  eexists. eexists. split; [reflexivity|].
  split; [field|]. split; [exact Hitems | reflexivity].
Qed.

Section Gate.

Import SignTranslator StabilizerSpec.

(** [np.argmax] returns the first position of the largest item. *)
Lemma argmax_fold (xs pre : list Q) (bi : nat) (b : Q) :
  nth_error pre bi = Some b ->
  (forall c, In c pre -> c <= b) ->
  (forall j c, (j < bi)%nat -> nth_error pre j = Some c -> c < b) ->
  exists bi' b' i',
    fold_left
      (fun (acc : nat * Q * nat) y =>
         let '(best_i, best, i) := acc in
         if Qlt_bool best y then (i, y, S i) else (best_i, best, S i))
      xs (bi, b, length pre) = (bi', b', i') /\
    nth_error (pre ++ xs) bi' = Some b' /\
    (forall c, In c (pre ++ xs) -> c <= b') /\
    (forall j c, (j < bi')%nat -> nth_error (pre ++ xs) j = Some c -> c < b').
Proof.
  revert pre bi b. induction xs as [|y xs IH]; intros pre bi b Hb Hmax Hfirst.
  - exists bi, b, (length pre). rewrite app_nil_r. cbn [fold_left]. auto.
  - cbn [fold_left].
    assert (Hbi : (bi < length pre)%nat) by (apply nth_error_Some; congruence).
    replace (pre ++ y :: xs) with ((pre ++ [y]) ++ xs)
      by (rewrite <- app_assoc; reflexivity).
    replace (S (length pre)) with (length (pre ++ [y]))
      by (rewrite length_app; cbn; lia).
    destruct (Qlt_bool b y) eqn:E.
    + apply Qlt_bool_iff in E. apply IH.
      * rewrite nth_error_app2, Nat.sub_diag by lia. reflexivity.
      * intros c Hc. apply in_app_or in Hc. destruct Hc as [Hc | [<- | []]].
        -- apply Qlt_le_weak. apply Qle_lt_trans with b; [now apply Hmax | exact E].
        -- apply Qle_refl.
      * intros j c Hj Hc. rewrite nth_error_app1 in Hc by exact Hj.
        apply Qle_lt_trans with b; [|exact E].
        apply Hmax. eapply nth_error_In; exact Hc.
    + apply Qlt_bool_false_iff in E. apply IH.
      * rewrite nth_error_app1 by exact Hbi. exact Hb.
      * intros c Hc. apply in_app_or in Hc. destruct Hc as [Hc | [<- | []]].
        -- now apply Hmax.
        -- exact E.
      * intros j c Hj Hc. rewrite nth_error_app1 in Hc by lia.
        now apply (Hfirst j).
Qed.

Lemma np_argmax_spec (probs : list Q) :
  probs <> [] ->
  exists i q,
    np_argmax probs = Ok i /\
    nth_error probs i = Some q /\
    (forall c, In c probs -> c <= q) /\
    (forall j c, (j < i)%nat -> nth_error probs j = Some c -> c < q).
Proof.
  destruct probs as [|x xs]; [congruence|]. intros _.
  destruct (argmax_fold xs [x] 0 x) as (bi & b & i & E & H1 & H2 & H3).
  - reflexivity.
  - intros c [<- | []]. apply Qle_refl.
  - intros j c Hj. lia.
  - exists bi, b. unfold np_argmax. cbn [length] in E. rewrite E.
    cbn [app] in *. auto.
Qed.

End Gate.

(** X20.  The gate of [predict].  When the classifier returns no
    probability the classification raises; when no probability is above
    GESTURE_THRESHOLD the frame is rejected; and when some probability is
    above it the frame is accepted with the largest probability and the first
    class that has it. *)
Theorem classify_gate (cfg : Config.t) (m : classifier) (l : list float)
        (probs : list Q) :
  m l = Ok probs ->
  (probs = [] -> classify cfg m l = Raise ValueError) /\
  (probs <> [] ->
   (forall c, In c probs -> c <= Config.GESTURE_THRESHOLD cfg) ->
   classify cfg m l = Ok None) /\
  (forall c0,
     In c0 probs -> Config.GESTURE_THRESHOLD cfg < c0 ->
     exists i q,
       classify cfg m l = Ok (Some (i, q)) /\
       nth_error probs i = Some q /\
       (forall c, In c probs -> c <= q) /\
       (forall j c, (j < i)%nat -> nth_error probs j = Some c -> c < q)).
Proof.
  intro Hm. unfold classify. rewrite Hm. cbn [bind].
  split; [intros ->; reflexivity|]. split.
  - intros Hne Hall.
    destruct (np_argmax_spec probs Hne) as (i & q & -> & Hq & _). cbn [bind].
    rewrite Hq.
    assert (Hle : q <= Config.GESTURE_THRESHOLD cfg).
    { apply Hall. eapply nth_error_In; exact Hq. }
    now rewrite (proj2 (Qlt_bool_false_iff _ _) Hle).
  - intros c0 Hin Hc0.
    assert (Hne : probs <> []) by (destruct probs; [contradiction | discriminate]).
    destruct (np_argmax_spec probs Hne) as (i & q & -> & Hq & Hmax & Hfirst).
    cbn [bind]. rewrite Hq.
    assert (Hlt : Config.GESTURE_THRESHOLD cfg < q).
    { apply Qlt_le_trans with c0; [exact Hc0 | now apply Hmax]. }
    rewrite (proj2 (Qlt_bool_iff _ _) Hlt).
    exists i, q. auto.
Qed.

(** X21.  With a window capacity of 0 the translator never shows a
    prediction: construction succeeds, and after any sequence of calls the
    window is empty, [get_current_prediction] returns the pair of the empty
    string and 0, and [predict] returns either (None, 0) or the empty string
    with 0. *)
Theorem zero_window_shows_nothing (cfg : Config.t) (loaded : option classifier)
        (calls : list call) :
  Config.SMOOTHING_WINDOW cfg = 0%Z ->
  exists s0,
    __init__ cfg loaded = Ok s0 /\
    window (run cfg calls s0) = [] /\
    fst (get_current_prediction (run cfg calls s0)) = Ok (""%string, 0) /\
    forall lm,
      fst (predict cfg lm (run cfg calls s0)) = Ok (None, 0) \/
      fst (predict cfg lm (run cfg calls s0)) = Ok (Some ""%string, 0).
Proof.
  intro Hw. eexists. split; [apply init_ok; lia|].
  rewrite Hw. cbn [Z.to_nat].
  set (s0 := {| model := loaded; prediction_history := Deque.mk 0 [];
                current_prediction := ""; current_confidence := 0 |}).
  assert (Hacc : forall s sign conf,
             capacity s = 0%nat -> window s = [] ->
             accept sign conf s =
             (Ok (""%string, 0),
              {| model := model s; prediction_history := prediction_history s;
                 current_prediction := ""; current_confidence := 0 |})).
  { intros s sign conf Hcap Hwin.
    destruct (accept_returns sign conf s) as (r & Hr & ->).
    unfold capacity, window in *.
    assert (Happ : Deque.append (sign, conf) (prediction_history s)
                   = prediction_history s).
    { unfold Deque.append. rewrite Hcap, Hwin. cbn [app length Nat.ltb Nat.leb tl].
      destruct (prediction_history s) as [n items]. cbn in Hcap, Hwin. now subst. }
    rewrite Happ in *. rewrite Hwin in Hr. cbn in Hr. injection Hr as <-.
    reflexivity. }
  assert (Hstep : forall c s,
             capacity s = 0%nat /\ window s = [] /\
             current_prediction s = ""%string /\ current_confidence s = 0 ->
             capacity (step cfg s c) = 0%nat /\ window (step cfg s c) = [] /\
             current_prediction (step cfg s c) = ""%string /\
             current_confidence (step cfg s c) = 0).
  { intros c s (H1 & H2 & H3 & H4). destruct c as [sign conf | lm |]; cbn [step].
    - rewrite (Hacc s sign conf H1 H2). cbn [snd]. now repeat split.
    - destruct (predict_cases cfg lm s) as [-> | (sg & cf & r & s' & Ha & ->)];
        cbn [snd]; [now repeat split|].
      rewrite (Hacc s sg cf H1 H2) in Ha. injection Ha as _ <-. now repeat split.
    - now repeat split. }
  assert (Hinv : forall cs s,
             capacity s = 0%nat /\ window s = [] /\
             current_prediction s = ""%string /\ current_confidence s = 0 ->
             capacity (run cfg cs s) = 0%nat /\ window (run cfg cs s) = [] /\
             current_prediction (run cfg cs s) = ""%string /\
             current_confidence (run cfg cs s) = 0).
  { induction cs as [|c cs IH]; intros s H; [exact H|].
    cbn [run fold_left]. apply IH. now apply Hstep. }
  destruct (Hinv calls s0) as (H1 & H2 & H3 & H4); [now repeat split|].
  split; [exact H2|]. split.
  - cbn. now rewrite H3, H4.
  - intro lm.
    destruct (predict_cases cfg lm (run cfg calls s0))
      as [-> | (sg & cf & r & s' & Ha & ->)]; [now left|].
    right. rewrite (Hacc _ sg cf H1 H2) in Ha. injection Ha as <- _. reflexivity.
Qed.

Section NormalizeScale.

Import SignDetector NormalizeSpec MoreSpec.

Variable c : Q.
Hypothesis c_pos : 0 < c.






End NormalizeScale.


(** ** The further properties at sample inputs *)

Import MoreExamples.


Lemma example_pose_in_frame (k : Keypoint) :
  In k example_pose ->
  0 <= kx k /\ kx k < inject_Z (Z.of_nat (width example_frame)) /\
  0 <= ky k /\ ky k < inject_Z (Z.of_nat (height example_frame)).
Proof.
  intro Hk.
  assert (H : forallb (fun k => Qle_bool 0 (kx k) && Qlt_bool (kx k) 640
                                && Qle_bool 0 (ky k) && Qlt_bool (ky k) 480)
                      example_pose = true) by (vm_compute; reflexivity).
  rewrite forallb_forall in H. specialize (H k Hk).
  rewrite !andb_true_iff in H. destruct H as [[[H1 H2] H3] H4].
  apply Qle_bool_iff in H1, H3. apply Qlt_bool_iff in H2, H4. auto.
Qed.

Lemma preprocess_landmarks_shape_witness :
  (length [Fin 1; Fin 2] <> 63%nat /\
   preprocess_landmarks (Some [Fin 1; Fin 2]) = Raise ValueError) /\
  (length nan_array = 63%nat /\
   exists v, preprocess_landmarks (Some nan_array) = Ok (Some v) /\ length v = 63%nat).
Proof.
  split.
  - split; [discriminate|].
    apply (proj1 (preprocess_landmarks_shape [Fin 1; Fin 2])). discriminate.
  - split; [reflexivity|].
    apply (proj2 (preprocess_landmarks_shape nan_array)). reflexivity.
Defined.


Lemma preprocess_landmarks_translation_invariant_witness :
  length example_pose = 21%nat /\
  exists v v',
    preprocess_landmarks (Some (_extract_landmarks example_pose)) = Ok (Some v) /\
    preprocess_landmarks
      (Some (_extract_landmarks (move (mkKeypoint 7 (-3) (1 # 2)) example_pose)))
    = Ok (Some v') /\
    Forall2 float_eq v' v.
Proof.
  split; [reflexivity|].
  apply (preprocess_landmarks_translation_invariant (mkKeypoint 7 (-3) (1 # 2))
           example_pose).
  reflexivity.
Defined.




Lemma calculate_hand_area_shape_witness :
  ((length [Fin 1; Fin 2] < 63)%nat /\
   calculate_hand_area (Some [Fin 1; Fin 2]) = Ok (Fin 0)) /\
  ((63 < length (repeat (Fin 1) 64))%nat /\
   calculate_hand_area (Some (repeat (Fin 1) 64)) = Raise ValueError) /\
  (length nan_array = 63%nat /\
   exists a, calculate_hand_area (Some nan_array) = Ok a).
Proof.
  split; [|split].
  - split; [cbn; lia|].
    apply (proj1 (proj2 (calculate_hand_area_shape [Fin 1; Fin 2]))). cbn. lia.
  - split; [cbn; lia|].
    apply (proj1 (proj2 (proj2 (calculate_hand_area_shape (repeat (Fin 1) 64))))).
    cbn. lia.
  - split; [reflexivity|].
    apply (proj2 (proj2 (proj2 (calculate_hand_area_shape nan_array)))). reflexivity.
Defined.


Lemma smooth_landmarks_whole_sequence_witness :
  (0 = 0)%Z /\
  smooth_landmarks (map (map Fin) example_sequence) 0
  = smooth_landmarks (map (map Fin) example_sequence)
                     (Z.of_nat (length (map (map Fin) example_sequence))).
Proof.
  split; [reflexivity|].
  apply (smooth_landmarks_whole_sequence (map (map Fin) example_sequence) 0).
  left. reflexivity.
Defined.

Lemma smooth_landmarks_last_only_witness :
  (0 < 2)%Z /\
  length [[Fin 3; Fin 4]; [Fin 5; Fin 9]] = Z.to_nat 2 /\
  smooth_landmarks ([[Fin 1; Fin 2]] ++ [[Fin 3; Fin 4]; [Fin 5; Fin 9]]) 2
  = smooth_landmarks [[Fin 3; Fin 4]; [Fin 5; Fin 9]] 2.
Proof.
  split; [reflexivity|]. split; [reflexivity|].
  apply (smooth_landmarks_last_only [[Fin 1; Fin 2]] [[Fin 3; Fin 4]; [Fin 5; Fin 9]] 2);
    reflexivity.
Defined.



Lemma get_hand_region_contains_hand_witness :
  length example_pose = 21%nat /\
  (0 < channels example_frame)%nat /\
  exists r,
    get_hand_region 0 example_frame (Some (_extract_landmarks example_pose))
    = Ok (Some r) /\
    forall k, In k example_pose ->
      (left r <= Qtruncate (kx k) < right r)%Z /\
      (top r <= Qtruncate (ky k) < bottom r)%Z /\
      (left r <= Z.max 0 (Qtruncate (kx k) - 20))%Z /\
      (Z.min (Z.of_nat (width example_frame)) (Qtruncate (kx k) + 20) <= right r)%Z /\
      (top r <= Z.max 0 (Qtruncate (ky k) - 20))%Z /\
      (Z.min (Z.of_nat (height example_frame)) (Qtruncate (ky k) + 20) <= bottom r)%Z.
Proof.
  split; [reflexivity|]. split; [cbn; lia|].
  apply (get_hand_region_contains_hand 0 example_frame example_pose);
    [reflexivity | cbn; lia | exact example_pose_in_frame].
Defined.

Lemma get_hand_region_beyond_frame_witness :
  length pose_right_of_frame = 21%nat /\
  (forall k, In k pose_right_of_frame ->
             inject_Z (Z.of_nat (width example_frame) + 20) <= kx k) /\
  get_hand_region 0 example_frame (Some (_extract_landmarks pose_right_of_frame))
  = Ok None.
Proof.
  assert (H : forall k, In k pose_right_of_frame ->
                        inject_Z (Z.of_nat (width example_frame) + 20) <= kx k).
  { intros k Hk. rewrite (repeat_spec _ _ _ Hk).
    apply Qle_bool_iff. reflexivity. }
  split; [reflexivity|]. split; [exact H|].
  apply (get_hand_region_beyond_frame 0 example_frame pose_right_of_frame);
    [reflexivity | left; exact H].
Defined.

Lemma get_hand_region_left_of_frame_witness :
  length pose_left_of_frame = 21%nat /\
  (0 < channels example_frame)%nat /\
  (forall k, In k pose_left_of_frame ->
     inject_Z (- Z.of_nat (width example_frame) - 20) < kx k /\
     kx k <= inject_Z (-21) /\
     0 <= ky k /\ ky k < inject_Z (Z.of_nat (height example_frame))) /\
  exists r,
    get_hand_region 0 example_frame (Some (_extract_landmarks pose_left_of_frame))
    = Ok (Some r) /\
    left r = 0%Z /\
    (0 < right r < Z.of_nat (width example_frame))%Z /\
    forall k, In k pose_left_of_frame -> (Qtruncate (kx k) < left r)%Z.
Proof.
  assert (H : forall k, In k pose_left_of_frame ->
     inject_Z (- Z.of_nat (width example_frame) - 20) < kx k /\
     kx k <= inject_Z (-21) /\
     0 <= ky k /\ ky k < inject_Z (Z.of_nat (height example_frame))).
  { intros k Hk. rewrite (repeat_spec _ _ _ Hk). cbn [kx ky].
    split; [reflexivity|]. split; [apply Qle_bool_iff; reflexivity|].
    split; [apply Qle_bool_iff; reflexivity | reflexivity]. }
  split; [reflexivity|]. split; [cbn; lia|]. split; [exact H|].
  apply (get_hand_region_left_of_frame 0 example_frame pose_left_of_frame);
    [reflexivity | cbn; lia | exact H].
Defined.

Lemma smooth_predictions_strict_majority_witness :
  (length (window (tracking None))
   < 2 * occurrences "A" (labels (window (tracking None))))%nat /\
  exists c, _smooth_predictions (window (tracking None)) = Ok ("A"%string, c).
Proof.
  split; [cbn; lia|].
  apply (smooth_predictions_strict_majority (window (tracking None)) "A").
  cbn. lia.
Defined.



Lemma accept_all_sliding_window_witness :
  (length (window (tracking None)) <= capacity (tracking None))%nat /\
  (length (window (fresh None)) <= capacity (fresh None))%nat /\
  capacity (fresh None) = capacity (tracking None) /\
  (0 < capacity (tracking None)
   <= length (repeat ("C"%string, 9 # 10) 5))%nat /\
  window (snd (accept_all (repeat ("C"%string, 9 # 10) 5) (tracking None)))
  = lastn (capacity (tracking None)) (repeat ("C"%string, 9 # 10) 5) /\
  fst (accept_all (repeat ("C"%string, 9 # 10) 5) (tracking None))
  = fst (accept_all (repeat ("C"%string, 9 # 10) 5) (fresh None)).
Proof.
  split; [cbn; lia|]. split; [cbn; lia|]. split; [reflexivity|].
  split; [cbn; lia|].
  apply (proj2 (accept_all_sliding_window (repeat ("C"%string, 9 # 10) 5)
                  (tracking None) (fresh None)
                  ltac:(cbn; lia) ltac:(cbn; lia) eq_refl)).
  cbn. lia.
Defined.

Lemma predict_after_reset_unsmoothed_witness :
  (0 < capacity (tracking (Some confident_classifier)))%nat /\
  model (tracking (Some confident_classifier)) = Some confident_classifier /\
  classify Config.default confident_classifier [] = Ok (Some (1%nat, 8 # 10)) /\
  class_name Config.default 1 = Ok "B"%string /\
  exists c s',
    predict Config.default (Some [])
            (snd (reset (tracking (Some confident_classifier))))
    = (Ok (Some "B"%string, c), s') /\
    c == 8 # 10 /\
    window s' = [("B"%string, 8 # 10)] /\
    get_current_prediction s' = (Ok ("B"%string, c), s').
Proof.
  split; [cbn; lia|]. split; [reflexivity|]. split; [reflexivity|].
  split; [reflexivity|].
  apply (predict_after_reset_unsmoothed Config.default
           (tracking (Some confident_classifier)) confident_classifier []
           1%nat (8 # 10) "B"%string);
    [cbn; lia | reflexivity | reflexivity | reflexivity].
Defined.

Lemma classify_gate_witness :
  (silent_classifier [] = Ok [] /\
   classify Config.default silent_classifier [] = Raise ValueError) /\
  (weak_classifier [] = Ok [1 # 10; 6 # 10; 3 # 10] /\
   (forall c, In c [1 # 10; 6 # 10; 3 # 10] ->
              c <= Config.GESTURE_THRESHOLD Config.default) /\
   classify Config.default weak_classifier [] = Ok None) /\
  (confident_classifier [] = Ok [1 # 10; 8 # 10; 1 # 10] /\
   In (8 # 10) [1 # 10; 8 # 10; 1 # 10] /\
   Config.GESTURE_THRESHOLD Config.default < 8 # 10 /\
   exists i q,
     classify Config.default confident_classifier [] = Ok (Some (i, q)) /\
     nth_error [1 # 10; 8 # 10; 1 # 10] i = Some q /\
     (forall c, In c [1 # 10; 8 # 10; 1 # 10] -> c <= q) /\
     (forall j c, (j < i)%nat ->
                  nth_error [1 # 10; 8 # 10; 1 # 10] j = Some c -> c < q)).
Proof.
  assert (Hweak : forall c, In c [1 # 10; 6 # 10; 3 # 10] ->
                            c <= Config.GESTURE_THRESHOLD Config.default).
  { intros c [<- | [<- | [<- | []]]]; apply Qle_bool_iff; reflexivity. }
  split; [|split].
  - split; [reflexivity|].
    apply (proj1 (classify_gate Config.default silent_classifier [] [] eq_refl)).
    reflexivity.
  - split; [reflexivity|]. split; [exact Hweak|].
    apply (proj1 (proj2 (classify_gate Config.default weak_classifier [] _ eq_refl)));
      [discriminate | exact Hweak].
  - split; [reflexivity|]. split; [cbn; auto|]. split; [reflexivity|].
    apply (proj2 (proj2 (classify_gate Config.default confident_classifier [] _
                           eq_refl)) (8 # 10));
      [cbn; auto | reflexivity].
Defined.

Lemma zero_window_shows_nothing_witness :
  Config.SMOOTHING_WINDOW zero_window_config = 0%Z /\
  exists s0,
    __init__ zero_window_config (Some confident_classifier) = Ok s0 /\
    window (run zero_window_config [Predict (Some []); Accept "A" (9 # 10)] s0) = [] /\
    fst (get_current_prediction
           (run zero_window_config [Predict (Some []); Accept "A" (9 # 10)] s0))
    = Ok (""%string, 0) /\
    forall lm,
      fst (predict zero_window_config lm
             (run zero_window_config [Predict (Some []); Accept "A" (9 # 10)] s0))
      = Ok (None, 0) \/
      fst (predict zero_window_config lm
             (run zero_window_config [Predict (Some []); Accept "A" (9 # 10)] s0))
      = Ok (Some ""%string, 0).
Proof.
  split; [reflexivity|].
  apply (zero_window_shows_nothing zero_window_config (Some confident_classifier)
           [Predict (Some []); Accept "A" (9 # 10)]).
  reflexivity.
Defined.
